(** * PowerURL: link cache repository, redirect token codec, click pipeline

    A shallow embedding of the Go sources of the short-link service:

    - the [TokenSigner] that issues and validates redirect tokens carrying
      a click id ([internal/http/util]),
    - the [linkRepository] over PostgreSQL, Redis and its Bloom filter
      ([internal/app/repository/link_repository.go]),
    - the [clickEventRepository], the [ClickConsumer] and the
      [ClickTimeoutChecker] of the click event pipeline,
    - the link service and the HTTP handlers that call them,

    together with the parts of the Go standard library they call
    ([encoding/base64], [crypto/sha256], [crypto/hmac], [encoding/binary]).

    Go byte slices and strings handled byte-wise are lists of integers in
    [0, 256); times are nanoseconds since the Unix epoch. *)

From Stdlib Require Import ZArith List Lia String Ascii Bool.
From stdpp Require Import gmap strings list fin_maps.

(** ** Bytes *)

Module Bytes.
Local Open Scope Z_scope.

Definition is_byte (b : Z) : Prop := 0 <= b < 256.

(** [[]byte(s)] for a string literal. *)
Definition of_string (s : string) : list Z :=
  map (fun a => Z.of_N (N_of_ascii a)) (list_ascii_of_string s).

(** [binary.BigEndian.PutUint32]. *)
Definition PutUint32 (v : Z) : list Z :=
  [Z.shiftr v 24 mod 256; Z.shiftr v 16 mod 256; Z.shiftr v 8 mod 256; v mod 256].

(** [binary.BigEndian.PutUint16]. *)
Definition PutUint16 (v : Z) : list Z :=
  [Z.shiftr v 8 mod 256; v mod 256].

(** [binary.BigEndian.Uint32] on the first four bytes of a slice. *)
Definition Uint32 (b : list Z) : Z :=
  Z.lor (Z.lor (Z.lor (Z.shiftl (nth 0 b 0) 24) (Z.shiftl (nth 1 b 0) 16))
               (Z.shiftl (nth 2 b 0) 8)) (nth 3 b 0).

(** [binary.BigEndian.Uint16] on the first two bytes of a slice. *)
Definition Uint16 (b : list Z) : Z :=
  Z.lor (Z.shiftl (nth 0 b 0) 8) (nth 1 b 0).

(** Conversions [uint32(x)] and [uint16(x)] of a Go integer. *)
Definition uint32 (x : Z) : Z := x mod 2 ^ 32.
Definition uint16 (x : Z) : Z := x mod 2 ^ 16.

(** [len(b)] as a Go int. *)
Definition len {A} (l : list A) : Z := Z.of_nat (length l).

(** The slice expression [b[i:j]]. *)
Definition slice {A} (i j : Z) (l : list A) : list A :=
  take (Z.to_nat (j - i)) (drop (Z.to_nat i) l).

End Bytes.

(** ** encoding/base64: [RawURLEncoding] *)

Module Base64.
Import Bytes.
Local Open Scope Z_scope.

Definition encodeURL : list Z :=
  Eval cbv in
    of_string "ABCDEFGHIJKLMNOPQRSTUVWXYZabcdefghijklmnopqrstuvwxyz0123456789-_".

Definition enc (v : Z) : Z := nth (Z.to_nat v) encodeURL 0.

Fixpoint index_of (c : Z) (l : list Z) (i : Z) : Z :=
  match l with
  | [] => 255
  | x :: r => if x =? c then i else index_of c r (i + 1)
  end.

(** [decodeMap[c]]: the alphabet index of [c], [0xff] when [c] is not in
    the alphabet. *)
Definition decodeMap (c : Z) : Z := index_of c encodeURL 0.

(** [Encoding.EncodeToString] without padding. *)
Fixpoint EncodeToString (src : list Z) : list Z :=
  match src with
  | [] => []
  | [b0] =>
      let val := Z.shiftl b0 16 in
      [enc (Z.land (Z.shiftr val 18) 63); enc (Z.land (Z.shiftr val 12) 63)]
  | [b0; b1] =>
      let val := Z.lor (Z.shiftl b0 16) (Z.shiftl b1 8) in
      [enc (Z.land (Z.shiftr val 18) 63); enc (Z.land (Z.shiftr val 12) 63);
       enc (Z.land (Z.shiftr val 6) 63)]
  | b0 :: b1 :: b2 :: rest =>
      let val := Z.lor (Z.lor (Z.shiftl b0 16) (Z.shiftl b1 8)) b2 in
      enc (Z.land (Z.shiftr val 18) 63) :: enc (Z.land (Z.shiftr val 12) 63) ::
      enc (Z.land (Z.shiftr val 6) 63) :: enc (Z.land val 63) ::
      EncodeToString rest
  end.

(** The three bytes a quantum of four sextets decodes to
    ([val := d0<<18 | d1<<12 | d2<<6 | d3]). *)
Definition quantum (d0 d1 d2 d3 : Z) : list Z :=
  let val := Z.lor (Z.lor (Z.lor (Z.shiftl d0 18) (Z.shiftl d1 12)) (Z.shiftl d2 6)) d3 in
  [Z.shiftr val 16 mod 256; Z.shiftr val 8 mod 256; val mod 256].

(** The decoding loop of [Encoding.Decode] ([decodeQuantum] run to the end
    of the input) for an encoding without padding and without strict mode:
    [dbuf] holds the sextets of the quantum read so far; new-line characters
    are skipped, any other character outside the alphabet is corrupt input,
    a lone trailing character is corrupt input, and the unused low bits of a
    trailing partial quantum are dropped unchecked. *)
Fixpoint decodeLoop (src : list Z) (dbuf : list Z) : option (list Z) :=
  match src with
  | [] =>
      match dbuf with
      | [] => Some []
      | [d0; d1] => Some (take 1 (quantum d0 d1 0 0))
      | [d0; d1; d2] => Some (take 2 (quantum d0 d1 d2 0))
      | _ => None
      end
  | c :: rest =>
      let out := decodeMap c in
      if out =? 255 then
        if (c =? 10) || (c =? 13) then decodeLoop rest dbuf else None
      else
        match dbuf with
        | [d0; d1; d2] =>
            match decodeLoop rest [] with
            | Some bs => Some (quantum d0 d1 d2 out ++ bs)
            | None => None
            end
        | _ => decodeLoop rest (dbuf ++ [out])
        end
  end.

(** [Encoding.DecodeString]; [None] is a [CorruptInputError]. *)
Definition DecodeString (s : list Z) : option (list Z) := decodeLoop s [].

End Base64.

(** ** crypto/sha256 and crypto/hmac *)

Module SHA256.
Import Bytes.
Local Open Scope Z_scope.

Definition add32 (a b : Z) : Z := (a + b) mod 2 ^ 32.
Definition rotr (n x : Z) : Z :=
  Z.lor (Z.shiftr x n) (Z.shiftl x (32 - n)) mod 2 ^ 32.
Definition not32 (x : Z) : Z := 2 ^ 32 - 1 - x.

Definition Ch (x y z : Z) : Z := Z.lxor (Z.land x y) (Z.land (not32 x) z).
Definition Maj (x y z : Z) : Z :=
  Z.lxor (Z.lxor (Z.land x y) (Z.land x z)) (Z.land y z).
Definition bsig0 (x : Z) : Z := Z.lxor (Z.lxor (rotr 2 x) (rotr 13 x)) (rotr 22 x).
Definition bsig1 (x : Z) : Z := Z.lxor (Z.lxor (rotr 6 x) (rotr 11 x)) (rotr 25 x).
Definition ssig0 (x : Z) : Z := Z.lxor (Z.lxor (rotr 7 x) (rotr 18 x)) (Z.shiftr x 3).
Definition ssig1 (x : Z) : Z := Z.lxor (Z.lxor (rotr 17 x) (rotr 19 x)) (Z.shiftr x 10).

(** The round constants, eight to a row. *)
Definition K : list Z :=
  concat
    [[0x428a2f98; 0x71374491; 0xb5c0fbcf; 0xe9b5dba5; 0x3956c25b; 0x59f111f1; 0x923f82a4; 0xab1c5ed5];
     [0xd807aa98; 0x12835b01; 0x243185be; 0x550c7dc3; 0x72be5d74; 0x80deb1fe; 0x9bdc06a7; 0xc19bf174];
     [0xe49b69c1; 0xefbe4786; 0x0fc19dc6; 0x240ca1cc; 0x2de92c6f; 0x4a7484aa; 0x5cb0a9dc; 0x76f988da];
     [0x983e5152; 0xa831c66d; 0xb00327c8; 0xbf597fc7; 0xc6e00bf3; 0xd5a79147; 0x06ca6351; 0x14292967];
     [0x27b70a85; 0x2e1b2138; 0x4d2c6dfc; 0x53380d13; 0x650a7354; 0x766a0abb; 0x81c2c92e; 0x92722c85];
     [0xa2bfe8a1; 0xa81a664b; 0xc24b8b70; 0xc76c51a3; 0xd192e819; 0xd6990624; 0xf40e3585; 0x106aa070];
     [0x19a4c116; 0x1e376c08; 0x2748774c; 0x34b0bcb5; 0x391c0cb3; 0x4ed8aa4a; 0x5b9cca4f; 0x682e6ff3];
     [0x748f82ee; 0x78a5636f; 0x84c87814; 0x8cc70208; 0x90befffa; 0xa4506ceb; 0xbef9a3f7; 0xc67178f2]].

(** The eight working words of the digest. *)
Record digest := Digest { h0 : Z; h1 : Z; h2 : Z; h3 : Z; h4 : Z; h5 : Z; h6 : Z; h7 : Z }.

Definition init : digest :=
  Digest 0x6a09e667 0xbb67ae85 0x3c6ef372 0xa54ff53a
         0x510e527f 0x9b05688c 0x1f83d9ab 0x5be0cd19.

(** The sixteen big-endian words of a 64-byte block. *)
Fixpoint words (n : nat) (b : list Z) : list Z :=
  match n with
  | O => []
  | S n' => Uint32 b :: words n' (drop 4 b)
  end.

(** Message schedule, most recent word first: [rw] holds w[t-1], w[t-2], ... *)
Fixpoint schedule (n : nat) (rw : list Z) : list Z :=
  match n with
  | O => rw
  | S n' =>
      let w := add32 (add32 (add32 (ssig1 (nth 1 rw 0)) (nth 6 rw 0))
                            (ssig0 (nth 14 rw 0))) (nth 15 rw 0) in
      schedule n' (w :: rw)
  end.

Definition round (d : digest) (kw : Z * Z) : digest :=
  let '(k, w) := kw in
  let t1 := add32 (add32 (add32 (add32 (h7 d) (bsig1 (h4 d))) (Ch (h4 d) (h5 d) (h6 d))) k) w in
  let t2 := add32 (bsig0 (h0 d)) (Maj (h0 d) (h1 d) (h2 d)) in
  Digest (add32 t1 t2) (h0 d) (h1 d) (h2 d) (add32 (h3 d) t1) (h4 d) (h5 d) (h6 d).

(** One call of the block function on a 64-byte block. *)
Definition block (d : digest) (b : list Z) : digest :=
  let w := rev (schedule 48 (rev (words 16 b))) in
  let r := fold_left round (combine K w) d in
  Digest (add32 (h0 d) (h0 r)) (add32 (h1 d) (h1 r)) (add32 (h2 d) (h2 r))
         (add32 (h3 d) (h3 r)) (add32 (h4 d) (h4 r)) (add32 (h5 d) (h5 r))
         (add32 (h6 d) (h6 r)) (add32 (h7 d) (h7 r)).

Fixpoint blocks (n : nat) (d : digest) (m : list Z) : digest :=
  match n with
  | O => d
  | S n' => blocks n' (block d (take 64 m)) (drop 64 m)
  end.

(** The padding written by [checkSum]: 0x80, zeros up to 56 mod 64, and the
    bit length as a big-endian 64-bit integer. *)
Definition pad (m : list Z) : list Z :=
  let l := len m in
  let z := (55 - l) mod 64 in
  m ++ [128] ++ repeat 0 (Z.to_nat z) ++
  PutUint32 (Z.shiftr (8 * l) 32 mod 2 ^ 32) ++ PutUint32 ((8 * l) mod 2 ^ 32).

(** [sha256.Sum256]: the 32 bytes of the digest. *)
Definition Sum256 (m : list Z) : list Z :=
  let p := pad m in
  let d := blocks (length p / 64)%nat init p in
  PutUint32 (h0 d) ++ PutUint32 (h1 d) ++ PutUint32 (h2 d) ++ PutUint32 (h3 d) ++
  PutUint32 (h4 d) ++ PutUint32 (h5 d) ++ PutUint32 (h6 d) ++ PutUint32 (h7 d).

(** [hmac.New(sha256.New, key)] followed by writes of [m] and [Sum(nil)]. *)
Definition HMAC (key m : list Z) : list Z :=
  let k := if 64 <? len key then Sum256 key else key in
  let k := k ++ repeat 0 (64 - length k)%nat in
  let ipad := map (Z.lxor 0x36) k in
  let opad := map (Z.lxor 0x5c) k in
  Sum256 (opad ++ Sum256 (ipad ++ m)).

End SHA256.

(** ** internal/http/util: the redirect token signer *)

Module Token.
Import Bytes.
Local Open Scope Z_scope.

Inductive error := ErrInvalidToken | ErrMissingSecret | ErrRand.

Inductive result (A : Type) := Ok (a : A) | Err (e : error).
Arguments Ok {A} a.
Arguments Err {A} e.

(** [TokenSigner]: the secret and the time to live (a [time.Duration], in
    nanoseconds). *)
Record TokenSigner := NewTokenSigner { secret : list Z; ttl : Z }.

(** [time.Time.Unix] of a time given in nanoseconds since the epoch. *)
Definition Unix (t : Z) : Z := t / 1000000000.

(** [TokenSigner.sign]: HMAC-SHA256 over the code, a bar and the payload. *)
Definition sign (s : TokenSigner) (code payload : list Z) : list Z :=
  SHA256.HMAC (secret s) (code ++ of_string "|" ++ payload).

(** [strings.SplitN(token, ".", 2)] when it yields two parts. *)
Fixpoint SplitN2 (token : list Z) : option (list Z * list Z) :=
  match token with
  | [] => None
  | c :: r =>
      if c =? 46 then Some ([], r)
      else match SplitN2 r with
           | Some (a, b) => Some (c :: a, b)
           | None => None
           end
  end.

(** [IssueWithClickID]; [now] is the reading of [time.Now()] and [rnd] what
    [rand.Read] wrote into the eight bytes ([None] when it failed). *)
Definition IssueWithClickID (s : TokenSigner) (now : Z) (rnd : option (list Z))
    (code clickID : list Z) : result (list Z) :=
  if len (secret s) =? 0 then Err ErrMissingSecret else
  let expires := uint32 (Unix (now + ttl s)) in
  match rnd with
  | None => Err ErrRand
  | Some r =>
      let basePayload := PutUint32 expires ++ r in
      let payload :=
        if negb (len clickID =? 0) then
          PutUint16 (uint16 (len clickID)) ++ clickID ++ basePayload
        else basePayload in
      let payloadEnc := Base64.EncodeToString payload in
      let signature := sign s code payload in
      let sigEnc := Base64.EncodeToString (take 16 signature) in
      Ok (payloadEnc ++ of_string "." ++ sigEnc)
  end.

(** [Issue]. *)
Definition Issue (s : TokenSigner) (now : Z) (rnd : option (list Z)) (code : list Z) :=
  IssueWithClickID s now rnd code [].

(** [ValidateAndExtractClickID]; [now] is the reading of [time.Now()]. *)
Definition ValidateAndExtractClickID (s : TokenSigner) (now : Z)
    (code token : list Z) : result (list Z) :=
  if len (secret s) =? 0 then Err ErrMissingSecret else
  match SplitN2 token with
  | None => Err ErrInvalidToken
  | Some (part0, part1) =>
      match Base64.DecodeString part0 with
      | None => Err ErrInvalidToken
      | Some payload =>
          match Base64.DecodeString part1 with
          | None => Err ErrInvalidToken
          | Some sigProvided =>
              if negb (len sigProvided =? 16) then Err ErrInvalidToken else
              let expected := sign s code payload in
              if negb (bool_decide (sigProvided = take 16 expected)) then Err ErrInvalidToken else
              if len payload <? 4 then Err ErrInvalidToken else
              let '(clickID, basePayload) :=
                if 14 <? len payload then
                  let clickIDLen := Uint16 (slice 0 2 payload) in
                  if clickIDLen + 2 + 12 <=? len payload then
                    (slice 2 (2 + clickIDLen) payload, drop (Z.to_nat (2 + clickIDLen)) payload)
                  else ([], payload)
                else ([], payload) in
              let expires := Uint32 (slice 0 4 basePayload) in
              if expires <? Unix now then Err ErrInvalidToken else
              Ok clickID
          end
      end
  end.

(** [Validate]. *)
Definition Validate (s : TokenSigner) (now : Z) (code token : list Z) : option error :=
  match ValidateAndExtractClickID s now code token with
  | Ok _ => None
  | Err e => Some e
  end.

(** Flipping bit [k] of the character at index [i] of a text. *)
Definition flip_bit (i : nat) (k : Z) (text : list Z) : list Z :=
  match text !! i with
  | Some c => <[i := Z.lxor c (2 ^ k)]> text
  | None => text
  end.

(** What [ValidateAndExtractClickID] does once the two parts are decoded. *)
Definition verify (s : TokenSigner) (now : Z) (code payload sigProvided : list Z)
  : result (list Z) :=
  if negb (len sigProvided =? 16) then Err ErrInvalidToken else
  let expected := sign s code payload in
  if negb (bool_decide (sigProvided = take 16 expected)) then Err ErrInvalidToken else
  if len payload <? 4 then Err ErrInvalidToken else
  let '(clickID, basePayload) :=
    if 14 <? len payload then
      let clickIDLen := Uint16 (slice 0 2 payload) in
      if clickIDLen + 2 + 12 <=? len payload then
        (slice 2 (2 + clickIDLen) payload, drop (Z.to_nat (2 + clickIDLen)) payload)
      else ([], payload)
    else ([], payload) in
  let expires := Uint32 (slice 0 4 basePayload) in
  if expires <? Unix now then Err ErrInvalidToken else
  Ok clickID.

(** The payload and the signature a token text decodes to. *)
Definition decoded (token : list Z) : option (list Z * list Z) :=
  match SplitN2 token with
  | Some (part0, part1) =>
      match Base64.DecodeString part0, Base64.DecodeString part1 with
      | Some payload, Some sigProvided => Some (payload, sigProvided)
      | _, _ => None
      end
  | None => None
  end.

End Token.

(** ** A state monad for code that talks to Redis and the database *)

Module StateM.

Definition M (W A : Type) : Type := W -> A * W.

Definition ret {W A} (a : A) : M W A := fun w => (a, w).
Definition bind {W A B} (c : M W A) (k : A -> M W B) : M W B :=
  fun w => let '(a, w') := c w in k a w'.
Definition get {W} : M W W := fun w => (w, w).
Definition modify {W} (f : W -> W) : M W unit := fun w => (tt, f w).
Definition when {W} (b : bool) (c : M W unit) : M W unit :=
  if b then c else ret tt.

Declare Scope st_scope.
Delimit Scope st_scope with st.
Notation "'let*' x := c 'in' k" := (bind c (fun x => k))
  (at level 10, x name, c at level 100, k at level 200, only parsing) : st_scope.

End StateM.

(** ** internal/app/repository: the link repository *)

Module Repo.
Import StateM.
Local Open Scope string_scope.
Local Open Scope Z_scope.
Local Open Scope st_scope.

(** [model.Link]; times are nanoseconds since the epoch, [0] the zero time. *)
Record Link := mkLink {
  Code : string;
  URL : string;
  Mode : string;
  TimerSeconds : Z;
  Disabled : bool;
  ExpiresAt : option Z;
  CreatedAt : Z;
  UpdatedAt : Z
}.

Inductive error :=
| ErrLinkNotFound      (* repository.ErrLinkNotFound *)
| ErrRecordNotFound    (* gorm.ErrRecordNotFound *)
| ErrDuplicatedKey     (* unique violation on the primary key *)
| ErrDatabase.         (* the database could not be reached *)

Inductive result (A : Type) := Ok (a : A) | Err (e : error).
Arguments Ok {A} a.
Arguments Err {A} e.

Definition second : Z := 1000000000.
Definition cacheKeyPrefix : string := "link:".
Definition cacheTTL : Z := 3600 * second.
Definition cacheNullTTL : Z := 300 * second.
Definition bloomKey : string := "bloom:links".
Definition bloomSize : Z := 1000000.
Definition bloomHashes : Z := 7.
Definition cacheNullValue : string := "NULL".

(** The calls issued to the two backends, in the order they were made. *)
Inductive call :=
| RedisExists (key : string)
| BfReserve (key : string)
| BfAdd (key item : string)
| BfExists (key item : string)
| RedisGet (key : string)
| RedisSet (key value : string) (ttl : Z)
| RedisDel (key : string)
| DbInsert (code : string)
| DbSelect (code : string)
| DbUpdate (code : string).

(** The world the repository runs in.

    - [links]: the links table, keyed by its primary key [code];
    - [kv]: the Redis string keys, each with its value and the instant at
      which it expires;
    - [bloom]: the filter stored under [bloomKey] ([None] while the key does
      not exist): the items for which [BF.EXISTS] answers 1. Members that no
      [BF.ADD] put there stand for the false positives of a Bloom filter;
    - [clock]: the current time;
    - [redis_faults], [db_faults]: the outcome of the coming calls to each
      backend, [true] for a call that fails (connection refused, timeout);
      an exhausted plan means every further call goes through;
    - [trace]: every call made so far, most recent first. *)
Record World := mkWorld {
  links : gmap string Link;
  kv : gmap string (string * Z);
  bloom : option (gset string);
  clock : Z;
  redis_faults : list bool;
  db_faults : list bool;
  trace : list call
}.

Definition set_links f (w : World) :=
  mkWorld (f (links w)) (kv w) (bloom w) (clock w) (redis_faults w) (db_faults w) (trace w).
Definition set_kv f (w : World) :=
  mkWorld (links w) (f (kv w)) (bloom w) (clock w) (redis_faults w) (db_faults w) (trace w).
Definition set_bloom f (w : World) :=
  mkWorld (links w) (kv w) (f (bloom w)) (clock w) (redis_faults w) (db_faults w) (trace w).
Definition set_clock f (w : World) :=
  mkWorld (links w) (kv w) (bloom w) (f (clock w)) (redis_faults w) (db_faults w) (trace w).
Definition set_redis_faults f (w : World) :=
  mkWorld (links w) (kv w) (bloom w) (clock w) (f (redis_faults w)) (db_faults w) (trace w).
Definition set_db_faults f (w : World) :=
  mkWorld (links w) (kv w) (bloom w) (clock w) (redis_faults w) (f (db_faults w)) (trace w).
Definition set_trace f (w : World) :=
  mkWorld (links w) (kv w) (bloom w) (clock w) (redis_faults w) (db_faults w) (f (trace w)).

Definition log (c : call) : M World unit := modify (set_trace (cons c)).

(** Whether the coming Redis call reaches the server. *)
Definition redis_up : M World bool := fun w =>
  match redis_faults w with
  | [] => (true, w)
  | f :: fs => (negb f, set_redis_faults (fun _ => fs) w)
  end.

(** Whether the coming database call reaches the server. *)
Definition db_up : M World bool := fun w =>
  match db_faults w with
  | [] => (true, w)
  | f :: fs => (negb f, set_db_faults (fun _ => fs) w)
  end.

(** *** Redis commands, as the client reports them *)

(** [Exists(key).Result()]: the count and whether an error came back. *)
Definition redis_Exists (key : string) : M World (Z * bool) :=
  let* _ := log (RedisExists key) in
  let* up := redis_up in
  if up then
    let* w := get in
    let live := match kv w !! key with
                | Some (_, exp) => clock w <? exp
                | None => false
                end in
    let filt := bool_decide (key = bloomKey) && bool_decide (is_Some (bloom w)) in
    ret (if live || filt then 1 else 0, false)
  else ret (0, true).

(** [Do("BF.RESERVE", key, ...).Err()]: [true] when an error came back
    (also when the key exists already). *)
Definition redis_BF_RESERVE : M World bool :=
  let* _ := log (BfReserve bloomKey) in
  let* up := redis_up in
  if up then
    let* w := get in
    match bloom w with
    | Some _ => ret true
    | None => let* _ := modify (set_bloom (fun _ => Some ∅)) in ret false
    end
  else ret true.

(** [Do("BF.ADD", key, item)]; an absent filter is created. *)
Definition redis_BF_ADD (item : string) : M World bool :=
  let* _ := log (BfAdd bloomKey item) in
  let* up := redis_up in
  if up then
    let* _ := modify (set_bloom (fun b => Some ({[item]} ∪ default ∅ b))) in ret false
  else ret true.

(** [Do("BF.EXISTS", key, item).Int()]: [None] when an error came back. *)
Definition redis_BF_EXISTS (item : string) : M World (option Z) :=
  let* _ := log (BfExists bloomKey item) in
  let* up := redis_up in
  if up then
    let* w := get in
    ret (Some (if bool_decide (item ∈ default ∅ (bloom w)) then 1 else 0))
  else ret None.

(** [Get(key).Result()]: [None] when an error came back, [redis.Nil] for a
    key that is absent or expired included. *)
Definition redis_Get (key : string) : M World (option string) :=
  let* _ := log (RedisGet key) in
  let* up := redis_up in
  if up then
    let* w := get in
    match kv w !! key with
    | Some (v, exp) => ret (if clock w <? exp then Some v else None)
    | None => ret None
    end
  else ret None.

(** [Set(key, value, ttl)]; [true] when an error came back. *)
Definition redis_Set (key value : string) (ttl : Z) : M World bool :=
  let* _ := log (RedisSet key value ttl) in
  let* up := redis_up in
  if up then
    let* w := get in
    let* _ := modify (set_kv (insert key (value, clock w + ttl))) in ret false
  else ret true.

(** [Del(key)]; [true] when an error came back. *)
Definition redis_Del (key : string) : M World bool :=
  let* _ := log (RedisDel key) in
  let* up := redis_up in
  if up then let* _ := modify (set_kv (delete key)) in ret false
  else ret true.

(** *** GORM statements on the links table *)

(** [db.Create(link)]: fills the zero [CreatedAt] and [UpdatedAt] with the
    current time and inserts the row; the primary key must be free. The
    value left in [*link] is returned with the error. *)
Definition db_Create (link : Link) : M World (Link * option error) :=
  let* _ := log (DbInsert (Code link)) in
  let* up := db_up in
  let* w := get in
  let row := mkLink (Code link) (URL link) (Mode link) (TimerSeconds link)
               (Disabled link) (ExpiresAt link)
               (if CreatedAt link =? 0 then clock w else CreatedAt link)
               (if UpdatedAt link =? 0 then clock w else UpdatedAt link) in
  if up then
    match links w !! Code link with
    | Some _ => ret (row, Some ErrDuplicatedKey)
    | None => let* _ := modify (set_links (insert (Code link) row)) in ret (row, None)
    end
  else ret (row, Some ErrDatabase).

(** [db.Where("code = ?", code).First(&link)]. *)
Definition db_First (code : string) : M World (result Link) :=
  let* _ := log (DbSelect code) in
  let* up := db_up in
  if up then
    let* w := get in
    match links w !! code with
    | Some l => ret (Ok l)
    | None => ret (Err ErrRecordNotFound)
    end
  else ret (Err ErrDatabase).

(** [db.Model(&Link{}).Where("code = ?", code).Updates(map)] with the five
    columns the repository writes; [updated_at] follows. Returns
    [RowsAffected] and the error. *)
Definition db_Updates (link : Link) : M World (Z * option error) :=
  let* _ := log (DbUpdate (Code link)) in
  let* up := db_up in
  if up then
    let* w := get in
    match links w !! Code link with
    | Some old =>
        let row := mkLink (Code old) (URL link) (Mode link) (TimerSeconds link)
                     (Disabled link) (ExpiresAt link) (CreatedAt old) (clock w) in
        let* _ := modify (set_links (insert (Code link) row)) in ret (1, None)
    | None => ret (0, None)
    end
  else ret (0, Some ErrDatabase).

(** *** The repository *)

Section Repository.

(** [json.Marshal] and [json.Unmarshal] at type [model.Link]. *)
Context (json_Marshal : Link -> option string).
Context (json_Unmarshal : string -> option Link).

(** [linkRepository]: [redis_nil] says whether the [redis] field is nil. *)
Record linkRepository := mkRepo { redis_nil : bool; bloomSupported : bool }.

(** [initBloomFilter], returning the repository it leaves. *)
Definition initBloomFilter (r : linkRepository) : M World linkRepository :=
  if redis_nil r then ret (mkRepo (redis_nil r) false)
  else
    let* e := redis_Exists bloomKey in
    if fst e =? 0 then
      let* err := redis_BF_RESERVE in
      ret (mkRepo (redis_nil r) (negb err))
    else ret (mkRepo (redis_nil r) true).

(** [NewLinkRepository]. *)
Definition NewLinkRepository (redis_is_nil : bool) : M World linkRepository :=
  initBloomFilter (mkRepo redis_is_nil false).

Definition bloomAdd (r : linkRepository) (code : string) : M World unit :=
  if negb (bloomSupported r) || redis_nil r then ret tt
  else let* _ := redis_BF_ADD code in ret tt.

Definition bloomExists (r : linkRepository) (code : string) : M World bool :=
  if negb (bloomSupported r) || redis_nil r then ret true
  else
    let* res := redis_BF_EXISTS code in
    match res with
    | None => ret true
    | Some result => ret (result =? 1)
    end.

Definition Create (r : linkRepository) (link : Link) : M World (Link * option error) :=
  let* res := db_Create link in
  match snd res with
  | Some err => ret (fst res, Some err)
  | None => let* _ := bloomAdd r (Code (fst res)) in ret (fst res, None)
  end.

(** The cache probe of [GetByCode]: [Some] is the answer it returns at
    once, [None] falls through to the database. *)
Definition probeCache (r : linkRepository) (cacheKey : string)
  : M World (option (result Link)) :=
  if negb (redis_nil r) then
    let* cached := redis_Get cacheKey in
    match cached with
    | Some v =>
        if String.eqb v cacheNullValue then ret (Some (Err ErrLinkNotFound))
        else match json_Unmarshal v with
             | Some link => ret (Some (Ok link))
             | None => ret None
             end
    | None => ret None
    end
  else ret None.

(** The rest of [GetByCode]: the read from the database, and the write of
    the answer to the cache. *)
Definition loadFromStore (r : linkRepository) (code cacheKey : string)
  : M World (result Link) :=
  let* res := db_First code in
  match res with
  | Err ErrRecordNotFound =>
      let* _ := when (negb (redis_nil r))
        (let* _ := redis_Set cacheKey cacheNullValue cacheNullTTL in ret tt) in
      ret (Err ErrLinkNotFound)
  | Err err => ret (Err err)
  | Ok link =>
      let* _ := when (negb (redis_nil r))
        (match json_Marshal link with
         | Some data => let* _ := redis_Set cacheKey data cacheTTL in ret tt
         | None => ret tt
         end) in
      ret (Ok link)
  end.

Definition GetByCode (r : linkRepository) (code : string) : M World (result Link) :=
  let* present := bloomExists r code in
  if negb present then ret (Err ErrLinkNotFound)
  else
    let cacheKey := cacheKeyPrefix +:+ code in
    let* hit := probeCache r cacheKey in
    match hit with
    | Some answer => ret answer
    | None => loadFromStore r code cacheKey
    end.

(** [Update]; the value left in [*link] is returned with the error. *)
Definition Update (r : linkRepository) (link : Link) : M World (Link * option error) :=
  let* res := db_Updates link in
  match snd res with
  | Some err => ret (link, Some err)
  | None =>
      if fst res =? 0 then ret (link, Some ErrLinkNotFound)
      else
        let* row := db_First (Code link) in
        match row with
        | Err err => ret (link, Some err)
        | Ok link' =>
            let* _ := when (negb (redis_nil r))
              (let* _ := redis_Del (cacheKeyPrefix +:+ Code link') in ret tt) in
            ret (link', None)
        end
  end.

End Repository.

(** The passing of time between two calls. *)
Definition advance (d : Z) (w : World) : World := set_clock (fun t => t + d) w.

(** What the cache holds for a code at the current time. *)
Definition cached (w : World) (code : string) : option string :=
  match kv w !! (cacheKeyPrefix +:+ code) with
  | Some (v, exp) => if clock w <? exp then Some v else None
  | None => None
  end.

(** The calls of a trace that read the links table. *)
Definition is_db_read (c : call) : bool :=
  match c with DbSelect _ => true | _ => false end.
Definition is_cache_read (c : call) : bool :=
  match c with RedisGet _ => true | _ => false end.
Definition is_cache_write (c : call) : bool :=
  match c with RedisSet _ _ _ | RedisDel _ => true | _ => false end.
Definition count (p : call -> bool) (w : World) : nat :=
  length (filter (fun c => p c = true) (trace w)).

(** The world after the filter has been asked. *)
Definition asked (r : linkRepository) (code : string) (w : World) : World :=
  if negb (bloomSupported r) || redis_nil r then w
  else set_trace (cons (BfExists bloomKey code)) w.

(** The world after a fault-free read of the database that found nothing,
    and after one that found a link. *)
Definition missed (code : string) (w : World) : World :=
  set_kv (insert (cacheKeyPrefix +:+ code) (cacheNullValue, clock w + cacheNullTTL))
    (set_trace (fun tr => RedisSet (cacheKeyPrefix +:+ code) cacheNullValue cacheNullTTL
                          :: DbSelect code :: tr) w).

Definition loaded (json_Marshal : Link -> option string)
    (code : string) (l : Link) (w : World) : World :=
  match json_Marshal l with
  | Some data =>
      set_kv (insert (cacheKeyPrefix +:+ code) (data, clock w + cacheTTL))
        (set_trace (fun tr => RedisSet (cacheKeyPrefix +:+ code) data cacheTTL
                              :: DbSelect code :: tr) w)
  | None => set_trace (cons (DbSelect code)) w
  end.

(** The row an update leaves. *)
Definition updated (old link : Link) (now : Z) : Link :=
  mkLink (Code old) (URL link) (Mode link) (TimerSeconds link)
    (Disabled link) (ExpiresAt link) (CreatedAt old) now.

End Repo.

(** ** The click event pipeline *)

Module Clicks.
Import StateM.
Local Open Scope string_scope.
Local Open Scope Z_scope.
Local Open Scope st_scope.

(** Modelled from the spec: the [Status] field of [model.ClickEvent] and the
    constants [model.ClickStatusPending], [model.ClickStatusSuccess] and
    [model.ClickStatusFailed], which the publisher, the redirect handler and
    the repository use but whose declaration is not among the sources; the
    spec gives the three values PENDING, SUCCESS and FAILED. *)
Definition ClickStatusPending : string := "PENDING".
Definition ClickStatusSuccess : string := "SUCCESS".
Definition ClickStatusFailed : string := "FAILED".

(** [model.ClickEvent]; [ID] is the primary key. *)
Record ClickEvent := mkEvent {
  ID : string;
  LinkCode : string;
  IP : string;
  UserAgent : string;
  Status : string;
  Timestamp : Z
}.

Definition with_status (s : string) (e : ClickEvent) : ClickEvent :=
  mkEvent (ID e) (LinkCode e) (IP e) (UserAgent e) s (Timestamp e).

Inductive error :=
| ErrDuplicatedKey     (* unique violation on the primary key *)
| ErrDatabase.         (* the database could not be reached *)

(** The click events table and the outcome of the coming statements
    ([true] for one that fails). *)
Record Store := mkStore {
  events : gmap string ClickEvent;
  db_faults : list bool
}.

Definition db_up : M Store bool := fun st =>
  match db_faults st with
  | [] => (true, st)
  | f :: fs => (negb f, mkStore (events st) fs)
  end.

Definition set_events (f : gmap string ClickEvent -> gmap string ClickEvent)
  : M Store unit :=
  modify (fun st => mkStore (f (events st)) (db_faults st)).

(** *** clickEventRepository *)

(** [Create]: [db.Create(event)], a plain INSERT. *)
Definition Create (event : ClickEvent) : M Store (option error) :=
  let* up := db_up in
  if up then
    let* st := get in
    match events st !! ID event with
    | Some _ => ret (Some ErrDuplicatedKey)
    | None => let* _ := set_events (insert (ID event) event) in ret None
    end
  else ret (Some ErrDatabase).

(** [UpdateStatus]: UPDATE ... SET status = ? WHERE id = ?. *)
Definition UpdateStatus (id status : string) : M Store (option error) :=
  let* up := db_up in
  if up then
    let* _ := set_events (alter (with_status status) id) in ret None
  else ret (Some ErrDatabase).

Definition expired_pending (expiredBefore : Z) (e : ClickEvent) : bool :=
  String.eqb (Status e) ClickStatusPending && (Timestamp e <? expiredBefore).

(** [UpdateExpiredPendingStatus]: UPDATE ... SET status = FAILED
    WHERE status = PENDING AND timestamp < ?; returns [RowsAffected]. *)
Definition UpdateExpiredPendingStatus (expiredBefore : Z)
  : M Store (Z * option error) :=
  let* up := db_up in
  if up then
    let* st := get in
    let hit := filter (fun kv => expired_pending expiredBefore kv.2 = true) (events st) in
    let* _ := set_events
      (fmap (fun e => if expired_pending expiredBefore e
                      then with_status ClickStatusFailed e else e)) in
    ret (Z.of_nat (size hit), None)
  else ret (0, Some ErrDatabase).

(** *** ClickTimeoutChecker *)

Record ClickTimeoutChecker := NewClickTimeoutChecker { ttl : Z }.

Definition checkExpiredPendingEvents (c : ClickTimeoutChecker) (now : Z)
  : M Store unit :=
  let expiredBefore := now - ttl c in
  let* _ := UpdateExpiredPendingStatus expiredBefore in
  ret tt.

(** What a loop is doing once the events it has been given are used up. *)
Inductive loop_status := Running | Returned.

(** What the [select] of [run] receives: a tick of the ticker, with the
    time it is handled at, or the closing of [stopChan]. *)
Inductive select_event := Tick (now : Z) | Stop.

(** [ClickTimeoutChecker.run]. *)
Fixpoint run (c : ClickTimeoutChecker) (evs : list select_event)
  : M Store loop_status :=
  match evs with
  | [] => ret Running
  | Tick now :: rest => let* _ := checkExpiredPendingEvents c now in run c rest
  | Stop :: _ => ret Returned
  end.

(** *** The confirmation path of [RedirectHandler.Go] *)

(** The status update [Go] starts once the token is valid and the link is
    loaded; [clickEvents_nil] says whether the handler has no repository. *)
Definition confirm (clickEvents_nil : bool) (clickID : string) : M Store unit :=
  if negb (String.eqb clickID "") && negb clickEvents_nil then
    let* _ := UpdateStatus clickID ClickStatusSuccess in ret tt
  else ret tt.

(** *** ClickConsumer *)

Section Consumer.

(** [json.Unmarshal] at type [model.ClickEvent]. *)
Context (json_Unmarshal : string -> option ClickEvent).

(** What [sub.Fetch] returns: an error other than a timeout, a timeout, or
    a batch of message bodies. *)
Inductive fetch := FetchError | FetchTimeout | Fetched (msgs : list string).

(** What the consumer answers to a message. *)
Inductive reply := Ack | Nak.

(** The body of the loop over the messages of a batch. *)
Definition handle (data : string) : M Store reply :=
  match json_Unmarshal data with
  | None => ret Nak
  | Some event =>
      let* err := Create event in
      match err with
      | Some _ => ret Nak
      | None => ret Ack
      end
  end.

Fixpoint handle_all (msgs : list string) : M Store (list reply) :=
  match msgs with
  | [] => ret []
  | m :: rest =>
      let* r := handle m in
      let* rs := handle_all rest in
      ret (r :: rs)
  end.

(** [ClickConsumer.consume] on the outcomes of its successive fetches: the
    replies it gave, the number of fetches it made, and what it is doing
    when the outcomes given are used up. *)
Fixpoint consume (fetches : list fetch) : M Store (list reply * nat * loop_status) :=
  match fetches with
  | [] => ret ([], O, Running)
  | f :: rest =>
      let* rs :=
        match f with
        | FetchError => ret []
        | FetchTimeout => handle_all []
        | Fetched msgs => handle_all msgs
        end in
      let* r := consume rest in
      ret ((rs ++ r.1.1)%list, S r.1.2, r.2)
  end.

End Consumer.

End Clicks.

(** ** internal/app/service: the link service *)

Module Service.
Import StateM.
Local Open Scope string_scope.
Local Open Scope Z_scope.
Local Open Scope st_scope.

(** [CreateLinkInput]. *)
Module CreateLinkInput.
Record t := mk {
  Code : string;
  URL : string;
  Mode : string;
  TimerSeconds : Z;
  Disabled : bool;
  ExpiresAt : option Z
}.
End CreateLinkInput.

(** [UpdateLinkInput]: a nil pointer is [None]. *)
Module UpdateLinkInput.
Record t := mk {
  URL : option string;
  Mode : option string;
  TimerSeconds : option Z;
  Disabled : option bool;
  ExpiresAt : option Z
}.
End UpdateLinkInput.

(** An error of the repository wrapped by [fmt.Errorf] with [%w]: the
    text put before it, and the error that [errors.Is] still finds. *)
Inductive error := Wrap (text : string) (err : Repo.error).

Inductive result (A : Type) := Ok (a : A) | Err (e : error).
Arguments Ok {A} a.
Arguments Err {A} e.

(** The assignments of [UpdateLink] to the loaded link. *)
Definition merge (input : UpdateLinkInput.t) (link : Repo.Link) : Repo.Link :=
  Repo.mkLink (Repo.Code link)
    (default (Repo.URL link) (UpdateLinkInput.URL input))
    (default (Repo.Mode link) (UpdateLinkInput.Mode input))
    (default (Repo.TimerSeconds link) (UpdateLinkInput.TimerSeconds input))
    (default (Repo.Disabled link) (UpdateLinkInput.Disabled input))
    (match UpdateLinkInput.ExpiresAt input with
     | Some t => Some t
     | None => Repo.ExpiresAt link
     end)
    (Repo.CreatedAt link) (Repo.UpdatedAt link).

Section Service.

Context (json_Marshal : Repo.Link -> option string).
Context (json_Unmarshal : string -> option Repo.Link).

(** [linkService.CreateLink]. *)
Definition CreateLink (repo : Repo.linkRepository) (input : CreateLinkInput.t)
  : M Repo.World (result Repo.Link) :=
  let link := Repo.mkLink (CreateLinkInput.Code input) (CreateLinkInput.URL input)
                (if String.eqb (CreateLinkInput.Mode input) "" then "direct"
                 else CreateLinkInput.Mode input)
                (CreateLinkInput.TimerSeconds input) (CreateLinkInput.Disabled input)
                (CreateLinkInput.ExpiresAt input) 0 0 in
  let* res := Repo.Create repo link in
  match snd res with
  | Some err => ret (Err (Wrap "create link" err))
  | None => ret (Ok (fst res))
  end.

(** [linkService.GetLink]. *)
Definition GetLink (repo : Repo.linkRepository) (code : string)
  : M Repo.World (result Repo.Link) :=
  let* res := Repo.GetByCode json_Marshal json_Unmarshal repo code in
  match res with
  | Repo.Err err => ret (Err (Wrap "get link" err))
  | Repo.Ok link => ret (Ok link)
  end.

(** [linkService.UpdateLink]. *)
Definition UpdateLink (repo : Repo.linkRepository) (code : string)
    (input : UpdateLinkInput.t) : M Repo.World (result Repo.Link) :=
  let* res := Repo.GetByCode json_Marshal json_Unmarshal repo code in
  match res with
  | Repo.Err err => ret (Err (Wrap "load link" err))
  | Repo.Ok link =>
      let* upd := Repo.Update repo (merge input link) in
      match snd upd with
      | Some err => ret (Err (Wrap "update link" err))
      | None => ret (Ok (fst upd))
      end
  end.

End Service.

End Service.

(** ** internal/http/handler: the management API *)

Module API.
Import StateM.
Local Open Scope string_scope.
Local Open Scope Z_scope.
Local Open Scope st_scope.

(** [CreateLinkRequest], as [BodyParser] fills it. *)
Module CreateLinkRequest.
Record t := mk {
  Code : string;
  URL : string;
  Mode : string;
  TimerSeconds : Z;
  Disabled : bool;
  ExpiresAt : option Z
}.
End CreateLinkRequest.

(** [UpdateLinkRequest]. *)
Module UpdateLinkRequest.
Record t := mk {
  URL : option string;
  Mode : option string;
  TimerSeconds : option Z;
  Disabled : option bool;
  ExpiresAt : option Z
}.
End UpdateLinkRequest.

(** [CreateLinkResponse]. *)
Module CreateLinkResponse.
Record t := mk {
  Code : string;
  URL : string;
  Mode : string;
  TimerSeconds : Z;
  Disabled : bool;
  ExpiresAt : option Z;
  CreatedAt : Z
}.
End CreateLinkResponse.

Definition StatusOK : Z := 200.
Definition StatusCreated : Z := 201.
Definition StatusBadRequest : Z := 400.
Definition StatusNotFound : Z := 404.
Definition StatusInternalServerError : Z := 500.

(** What a handler sends: a status with [{"error": message}], or a status
    with a link. *)
Inductive response :=
| Error (status : Z) (message : string)
| Body (status : Z) (link : CreateLinkResponse.t).

Definition render (link : Repo.Link) : CreateLinkResponse.t :=
  CreateLinkResponse.mk (Repo.Code link) (Repo.URL link) (Repo.Mode link)
    (Repo.TimerSeconds link) (Repo.Disabled link) (Repo.ExpiresAt link)
    (Repo.CreatedAt link).

Definition mode_ok (mode : string) : bool :=
  String.eqb mode "" || String.eqb mode "direct" || String.eqb mode "click" ||
  String.eqb mode "timer".

Section API.

Context (json_Marshal : Repo.Link -> option string).
Context (json_Unmarshal : string -> option Repo.Link).

(** [APIHandler.CreateLink]; [body] is [None] when [BodyParser] fails. *)
Definition CreateLink (repo : Repo.linkRepository) (body : option CreateLinkRequest.t)
  : M Repo.World response :=
  match body with
  | None => ret (Error StatusBadRequest "invalid request body")
  | Some req =>
      if String.eqb (CreateLinkRequest.URL req) "" then
        ret (Error StatusBadRequest "url is required")
      else if negb (mode_ok (CreateLinkRequest.Mode req)) then
        ret (Error StatusBadRequest "mode must be one of: direct, click, timer")
      else if (CreateLinkRequest.TimerSeconds req <? 0)
              || (300 <? CreateLinkRequest.TimerSeconds req) then
        ret (Error StatusBadRequest "timer_seconds must be between 0 and 300")
      else
        let input := Service.CreateLinkInput.mk
                       (CreateLinkRequest.Code req) (CreateLinkRequest.URL req)
                       (CreateLinkRequest.Mode req) (CreateLinkRequest.TimerSeconds req)
                       (CreateLinkRequest.Disabled req) (CreateLinkRequest.ExpiresAt req) in
        let* res := Service.CreateLink repo input in
        match res with
        | Service.Err _ => ret (Error StatusInternalServerError "failed to create link")
        | Service.Ok link => ret (Body StatusCreated (render link))
        end
  end.

(** [APIHandler.GetLink]. *)
Definition GetLink (repo : Repo.linkRepository) (code : string) : M Repo.World response :=
  if String.eqb code "" then ret (Error StatusBadRequest "code is required")
  else
    let* res := Service.GetLink json_Marshal json_Unmarshal repo code in
    match res with
    | Service.Err _ => ret (Error StatusNotFound "link not found")
    | Service.Ok link => ret (Body StatusOK (render link))
    end.

(** [APIHandler.UpdateLink]. *)
Definition UpdateLink (repo : Repo.linkRepository) (code : string)
    (body : option UpdateLinkRequest.t) : M Repo.World response :=
  if String.eqb code "" then ret (Error StatusBadRequest "code is required")
  else
    match body with
    | None => ret (Error StatusBadRequest "invalid request body")
    | Some req =>
        if match UpdateLinkRequest.Mode req with
           | Some mode => negb (mode_ok mode)
           | None => false
           end then
          ret (Error StatusBadRequest "mode must be one of: direct, click, timer")
        else if match UpdateLinkRequest.TimerSeconds req with
                | Some n => (n <? 0) || (300 <? n)
                | None => false
                end then
          ret (Error StatusBadRequest "timer_seconds must be between 0 and 300")
        else
          let input := Service.UpdateLinkInput.mk
                         (UpdateLinkRequest.URL req) (UpdateLinkRequest.Mode req)
                         (UpdateLinkRequest.TimerSeconds req) (UpdateLinkRequest.Disabled req)
                         (UpdateLinkRequest.ExpiresAt req) in
          let* res := Service.UpdateLink json_Marshal json_Unmarshal repo code input in
          match res with
          | Service.Err _ => ret (Error StatusNotFound "link not found")
          | Service.Ok link => ret (Body StatusOK (render link))
          end
    end.

End API.

End API.

(** ** internal/http/handler: the redirect handler *)

Module Redirect.
Import StateM.
Local Open Scope string_scope.
Local Open Scope Z_scope.
Local Open Scope st_scope.

Definition tokenTTL : Z := 60 * 1000000000.

Definition StatusFound : Z := 302.
Definition StatusBadRequest : Z := 400.
Definition StatusUnauthorized : Z := 401.
Definition StatusNotFound : Z := 404.
Definition StatusGone : Z := 410.
Definition StatusInternalServerError : Z := 500.

(** [string(b)] for a byte slice. *)
Definition to_string (b : list Z) : string :=
  string_of_list_ascii (map (fun z => ascii_of_N (Z.to_N z)) b).

(** [RedirectHandler]: the repository of links, whether the repository of
    click events is nil, and the signer. *)
Record RedirectHandler := mkHandler {
  links : Repo.linkRepository;
  clickEvents_nil : bool;
  tokens : Token.TokenSigner
}.

(** [NewRedirectHandler]. *)
Definition NewRedirectHandler (links : Repo.linkRepository) (clickEvents_nil : bool)
    (secret : list Z) : RedirectHandler :=
  mkHandler links clickEvents_nil (Token.NewTokenSigner secret tokenTTL).

Record linkLoadError := mkLoadError { StatusCode : Z; Message : string }.

(** What [Go] sends: a status with an error message, or a redirect. *)
Inductive response :=
| Error (status : Z) (message : string)
| Redirect (url : string) (status : Z).

(** The handler works on the links (table, cache and filter) and on the
    click events table. *)
Definition State : Type := Repo.World * Clicks.Store.

Definition on_links {A} (c : M Repo.World A) : M State A :=
  fun s => let '(a, w) := c s.1 in (a, (w, s.2)).
Definition on_clicks {A} (c : M Clicks.Store A) : M State A :=
  fun s => let '(a, st) := c s.2 in (a, (s.1, st)).

Section Redirect.

Context (json_Marshal : Repo.Link -> option string).
Context (json_Unmarshal : string -> option Repo.Link).

(** [RedirectHandler.loadLink]. *)
Definition loadLink (h : RedirectHandler) (code : string)
  : M Repo.World (Repo.Link + linkLoadError) :=
  let* res := Repo.GetByCode json_Marshal json_Unmarshal (links h) code in
  match res with
  | Repo.Err Repo.ErrLinkNotFound =>
      ret (inr (mkLoadError StatusNotFound "short link not found"))
  | Repo.Err _ =>
      ret (inr (mkLoadError StatusInternalServerError "internal server error"))
  | Repo.Ok link =>
      if Repo.Disabled link then ret (inr (mkLoadError StatusGone "link is disabled"))
      else
        let* w := get in
        match Repo.ExpiresAt link with
        | Some t =>
            if t <? Repo.clock w then ret (inr (mkLoadError StatusGone "link expired"))
            else ret (inl link)
        | None => ret (inl link)
        end
  end.

(** [RedirectHandler.Go]; the status update it starts in a goroutine is run
    before the response is sent. *)
Definition Go (h : RedirectHandler) (code token : string) : M State response :=
  if String.eqb code "" || String.eqb token "" then
    ret (Error StatusBadRequest "missing code or token")
  else
    let* s := get in
    match Token.ValidateAndExtractClickID (tokens h) (Repo.clock s.1)
            (Bytes.of_string code) (Bytes.of_string token) with
    | Token.Err Token.ErrInvalidToken =>
        ret (Error StatusUnauthorized "invalid or expired token")
    | Token.Err _ => ret (Error StatusInternalServerError "failed to validate token")
    | Token.Ok clickID =>
        let* loaded := on_links (loadLink h code) in
        match loaded with
        | inr e => ret (Error (StatusCode e) (Message e))
        | inl link =>
            let* _ := on_clicks (Clicks.confirm (clickEvents_nil h) (to_string clickID)) in
            ret (Redirect (Repo.URL link) StatusFound)
        end
    end.

End Redirect.

End Redirect.

(** ** Words used in the statements *)

Module TokenWords.
Local Open Scope Z_scope.

(** The characters that need no escaping in the path of a URL: letters,
    digits, [-] and [_]. *)
Definition url_safe (c : Z) : bool :=
  ((65 <=? c) && (c <=? 90)) || ((97 <=? c) && (c <=? 122)) ||
  ((48 <=? c) && (c <=? 57)) || (c =? 45) || (c =? 95).

End TokenWords.

Module ClickWords.
Import Clicks.

(** The messages of a run of fetches, in the order they were delivered. *)
Definition messages (fetches : list fetch) : list string :=
  concat (map (fun f => match f with Fetched msgs => msgs | _ => [] end) fetches).

End ClickWords.

Module RepoAux.
Import Repo.
Local Open Scope Z_scope.

(** The row [db.Create] writes for a link at a given time. *)
Definition stamped (link : Link) (now : Z) : Link :=
  mkLink (Code link) (URL link) (Mode link) (TimerSeconds link)
    (Disabled link) (ExpiresAt link)
    (if CreatedAt link =? 0 then now else CreatedAt link)
    (if UpdatedAt link =? 0 then now else UpdatedAt link).

End RepoAux.

(** ** Sample data for the examples *)

Module TokenSample.
Import Bytes Token.
Local Open Scope Z_scope.

Definition signer : TokenSigner := NewTokenSigner (of_string "s3cret") (60 * 1000000000).
Definition now : Z := 1700000000 * 1000000000.
Definition rnd : list Z := [1; 2; 3; 4; 5; 6; 7; 8].
Definition code : list Z := of_string "promo".

(** [ZVPxPAECAwQFBgcI.P10SLB5mbFbn0ANAExRsfQ] *)
Definition token : list Z :=
  [90; 86; 80; 120; 80; 65; 69; 67; 65; 119; 81; 70; 66; 103; 99; 73;
   46; 80; 49; 48; 83; 76; 66; 53; 109; 98; 70; 98; 110; 48; 65; 78; 65;
   69; 120; 82; 115; 102; 81].

(** [AANhYmNlU_E8AQIDBAUGBwg.W02gxGSkSYS4pHCSSpwfTg] *)
Definition click_token : list Z :=
  [65; 65; 78; 104; 89; 109; 78; 108; 85; 95; 69; 56; 65; 81; 73; 68; 66;
   65; 85; 71; 66; 119; 103; 46; 87; 48; 50; 103; 120; 71; 83; 107; 83; 89;
   83; 52; 112; 72; 67; 83; 83; 112; 119; 102; 84; 103].

End TokenSample.

Module RepoSample.
Import Repo.
Local Open Scope string_scope.
Local Open Scope Z_scope.

Definition link : Link :=
  mkLink "promo" "https://example.org/a" "click" 0 false None 1000 1000.

(** The same link with the URL a caller wants it to have. *)
Definition edited : Link :=
  mkLink "promo" "https://example.org/b" "click" 0 false None 0 0.

(** A codec for the examples: it writes the code and the URL, and reads
    back the sample link only. *)
Definition json_Marshal (l : Link) : option string :=
  Some ("{code:" +:+ Code l +:+ ",url:" +:+ URL l +:+ "}").
Definition json_Unmarshal (s : string) : option Link :=
  if String.eqb s "{code:promo,url:https://example.org/a}" then Some link else None.

(** A repository with Redis and a Bloom filter. *)
Definition repo : linkRepository := mkRepo false true.

Definition now : Z := 1700000000 * second.

(** One link in the table, registered in the filter, nothing cached. *)
Definition world : World :=
  mkWorld {[ "promo" := link ]} ∅ (Some {[ "promo" ]}) now [] [] [].

(** The same with the link cached, and with a damaged cache entry. *)
Definition warm : World :=
  mkWorld {[ "promo" := link ]}
    {[ "link:promo" := ("{code:promo,url:https://example.org/a}", now + cacheTTL) ]}
    (Some {[ "promo" ]}) now [] [] [].
Definition damaged : World :=
  mkWorld {[ "promo" := link ]} {[ "link:promo" := ("{code:pro", now + cacheTTL) ]}
    (Some {[ "promo" ]}) now [] [] [].

(** An empty table behind a filter that answers 1 for [ghost]. *)
Definition haunted : World :=
  mkWorld ∅ ∅ (Some {[ "ghost" ]}) now [] [] [].

(** An empty table and an empty filter, and a Redis that drops the coming
    command. *)
Definition flaky : World :=
  mkWorld ∅ ∅ (Some ∅) now [true] [] [].

End RepoSample.

Module ClickSample.
Import Clicks.
Local Open Scope string_scope.
Local Open Scope Z_scope.

Definition event : ClickEvent :=
  mkEvent "abc" "promo" "203.0.113.7" "curl/8.0" ClickStatusPending
    (1700000000 * 1000000000 + 1000000).

(** A table holding the sample event, and a database that answers. *)
Definition store : Store := mkStore {[ "abc" := event ]} [].

Definition checker : ClickTimeoutChecker := NewClickTimeoutChecker (60 * 1000000000).

(** A decoder for the examples: it knows the body of the sample event. *)
Definition body : string := "{id:abc,link_code:promo}".
Definition json_Unmarshal (data : string) : option ClickEvent :=
  if String.eqb data body then Some event else None.

End ClickSample.

Module MoreSample.
Import Repo.
Local Open Scope string_scope.
Local Open Scope Z_scope.

(** Redis without the Bloom filter commands, and no Redis at all. *)
Definition plain : linkRepository := mkRepo false false.
Definition bare : linkRepository := mkRepo true false.

(** An empty table behind an empty filter. *)
Definition empty : World :=
  mkWorld ∅ ∅ (Some ∅) RepoSample.now [] [] [].

(** The sample world with Redis failing three times, with Redis failing
    once while the link is cached, and with the database down. *)
Definition down : World :=
  mkWorld {[ "promo" := RepoSample.link ]} ∅ (Some {[ "promo" ]}) RepoSample.now
    [true; true; true] [] [].
Definition warm_flaky : World :=
  mkWorld {[ "promo" := RepoSample.link ]}
    {[ "link:promo" := ("{code:promo,url:https://example.org/a}", RepoSample.now + cacheTTL) ]}
    (Some {[ "promo" ]}) RepoSample.now [true] [] [].
Definition dark : World :=
  mkWorld {[ "promo" := RepoSample.link ]} ∅ (Some {[ "promo" ]}) RepoSample.now
    [] [true] [].

(** A request to create the sample link, and one to change its URL. *)
Definition request : API.CreateLinkRequest.t :=
  API.CreateLinkRequest.mk "promo" "https://example.org/a" "click" 5 false None.
Definition change : Service.UpdateLinkInput.t :=
  Service.UpdateLinkInput.mk (Some "https://example.org/b") None None None None.

Definition handler : Redirect.RedirectHandler :=
  Redirect.NewRedirectHandler RepoSample.repo false (Bytes.of_string "s3cret").

End MoreSample.


(** * Properties *)

Module BytesFacts.
Import Bytes.
Local Open Scope Z_scope.

Lemma lor_shiftl_add (a b n : Z) :
  0 <= n -> 0 <= b < 2 ^ n -> Z.lor (Z.shiftl a n) b = a * 2 ^ n + b.
Proof.
  intros Hn Hb.
  assert (Hland : Z.land (Z.shiftl a n) b = 0).
  { apply Z.bits_inj'; intros i Hi. rewrite Z.land_spec, Z.bits_0.
    destruct (Z.lt_ge_cases i n) as [Hlt | Hge].
    - rewrite Z.shiftl_spec_low by trivial. reflexivity.
    - rewrite <- (Z.mod_small b (2 ^ n)) by trivial.
      rewrite Z.mod_pow2_bits_high by lia. apply andb_false_r. }
  rewrite <- Z.lxor_lor, <- Z.add_nocarry_lxor, Z.shiftl_mul_pow2; trivial.
Qed.

(** Or-ing a value below [2 ^ n] into a multiple of [2 ^ n] adds it. *)
Lemma lor_add (n hi lo : Z) :
  0 <= n -> hi mod 2 ^ n = 0 -> 0 <= lo < 2 ^ n -> Z.lor hi lo = hi + lo.
Proof.
  intros Hn Hhi Hlo.
  assert (H2 : 0 < 2 ^ n) by (apply Z.pow_pos_nonneg; lia).
  rewrite (Z.div_mod hi (2 ^ n)) at 1 by lia.
  rewrite Hhi, Z.add_0_r, Z.mul_comm, <- Z.shiftl_mul_pow2 by trivial.
  rewrite lor_shiftl_add by trivial.
  rewrite (Z.div_mod hi (2 ^ n)) at 2 by lia. lia.
Qed.

Lemma land_63 (x : Z) : Z.land x 63 = x mod 64.
Proof. change 63 with (Z.ones 6). rewrite Z.land_ones by lia. reflexivity. Qed.

Lemma forall_below (P : Z -> bool) (n : nat) :
  forallb P (map Z.of_nat (seq 0 n)) = true ->
  forall v, 0 <= v < Z.of_nat n -> P v = true.
Proof.
  intros H v Hv. rewrite forallb_forall in H. apply H.
  apply in_map_iff. exists (Z.to_nat v). split; [lia|].
  apply in_seq. lia.
Qed.

Ltac pow2 :=
  change (2 ^ 6) with 64 in *; change (2 ^ 8) with 256 in *;
  change (2 ^ 12) with 4096 in *; change (2 ^ 16) with 65536 in *;
  change (2 ^ 18) with 262144 in *; change (2 ^ 24) with 16777216 in *;
  change (2 ^ 32) with 4294967296 in *.

(** Side conditions of [lor_add]: bounds, and divisibility of a sum of
    products by a power of two. *)
Ltac multiple :=
  apply Z.mod_divide; [lia|];
  repeat apply Z.divide_add_r;
  apply Z.divide_mul_r;
  match goal with |- Z.divide ?m ?c => exists (c / m); reflexivity end.

Ltac arith := pow2; first [multiple | Z.div_mod_to_equations; lia].

Lemma Uint32_PutUint32 (v : Z) (rest : list Z) :
  0 <= v < 2 ^ 32 -> Uint32 (PutUint32 v ++ rest) = v.
Proof.
  intros Hv. unfold Uint32, PutUint32. cbn [app nth].
  rewrite !Z.shiftr_div_pow2, !Z.shiftl_mul_pow2 by lia.
  rewrite (lor_add 24 (_ * 2 ^ 24) (_ * 2 ^ 16)) by arith.
  rewrite (lor_add 16 _ (_ * 2 ^ 8)) by arith.
  rewrite (lor_add 8) by arith.
  arith.
Qed.

Lemma Uint16_PutUint16 (v : Z) (rest : list Z) :
  0 <= v < 2 ^ 16 -> Uint16 (PutUint16 v ++ rest) = v.
Proof.
  intros Hv. unfold Uint16, PutUint16. cbn [app nth].
  rewrite !Z.shiftr_div_pow2, !Z.shiftl_mul_pow2 by lia.
  rewrite (lor_add 8) by arith.
  arith.
Qed.

Lemma PutUint32_bytes (v : Z) : Forall is_byte (PutUint32 v).
Proof.
  unfold PutUint32, is_byte. repeat constructor.
  all: apply Z.mod_pos_bound; lia.
Qed.

Lemma PutUint16_bytes (v : Z) : Forall is_byte (PutUint16 v).
Proof.
  unfold PutUint16, is_byte. repeat constructor.
  all: apply Z.mod_pos_bound; lia.
Qed.

Lemma of_string_bytes (s : string) : Forall is_byte (of_string s).
Proof.
  unfold of_string. apply Forall_map, Forall_forall. intros a _.
  unfold is_byte. pose proof (N_ascii_bounded a). simpl. lia.
Qed.

End BytesFacts.

Module Base64Facts.
Import Bytes Base64 BytesFacts.
Local Open Scope Z_scope.

Lemma sextet_facts (v : Z) :
  0 <= v < 64 -> decodeMap (enc v) = v /\ enc v <> 46.
Proof.
  intros Hv.
  pose proof (forall_below
    (fun v => (decodeMap (enc v) =? v) && negb (enc v =? 46)) 64 eq_refl v Hv) as H.
  cbv beta in H. apply andb_true_iff in H as [H1 H2].
  apply negb_true_iff in H2. split; lia.
Qed.

Lemma decodeMap_enc (v : Z) : 0 <= v < 64 -> decodeMap (enc v) = v.
Proof. intros Hv. apply sextet_facts, Hv. Qed.

(** What the decoding loop does with a character of the alphabet. *)
Lemma decodeLoop_enc (v : Z) (rest dbuf : list Z) :
  0 <= v < 64 ->
  decodeLoop (enc v :: rest) dbuf =
  match dbuf with
  | [d0; d1; d2] =>
      match decodeLoop rest [] with
      | Some bs => Some (quantum d0 d1 d2 v ++ bs)
      | None => None
      end
  | _ => decodeLoop rest (dbuf ++ [v])
  end.
Proof.
  intros Hv. cbn [decodeLoop]. rewrite decodeMap_enc by trivial.
  destruct (v =? 255) eqn:E; [lia | reflexivity].
Qed.

Lemma quantum_arith (d0 d1 d2 d3 : Z) :
  0 <= d0 < 64 -> 0 <= d1 < 64 -> 0 <= d2 < 64 -> 0 <= d3 < 64 ->
  quantum d0 d1 d2 d3 =
  let val := d0 * 2 ^ 18 + d1 * 2 ^ 12 + d2 * 2 ^ 6 + d3 in
  [val / 2 ^ 16 mod 256; val / 2 ^ 8 mod 256; val mod 256].
Proof.
  intros H0 H1 H2 H3. unfold quantum.
  rewrite !Z.shiftr_div_pow2, !Z.shiftl_mul_pow2 by lia.
  rewrite (lor_add 18 (_ * 2 ^ 18) (_ * 2 ^ 12)) by arith.
  rewrite (lor_add 12 _ (_ * 2 ^ 6)) by arith.
  rewrite (lor_add 6) by arith.
  reflexivity.
Qed.

Lemma sextet_range (x : Z) : 0 <= Z.land x 63 < 64.
Proof. rewrite land_63. apply Z.mod_pos_bound. lia. Qed.

Lemma encode3 (b0 b1 b2 : Z) :
  is_byte b0 -> is_byte b1 -> is_byte b2 ->
  let val := Z.lor (Z.lor (Z.shiftl b0 16) (Z.shiftl b1 8)) b2 in
  quantum (Z.land (Z.shiftr val 18) 63) (Z.land (Z.shiftr val 12) 63)
          (Z.land (Z.shiftr val 6) 63) (Z.land val 63) = [b0; b1; b2].
Proof.
  unfold is_byte. intros H0 H1 H2.
  set (val := Z.lor (Z.lor (Z.shiftl b0 16) (Z.shiftl b1 8)) b2).
  rewrite quantum_arith by apply sextet_range.
  assert (Hval : val = b0 * 2 ^ 16 + b1 * 2 ^ 8 + b2).
  { unfold val. rewrite !Z.shiftl_mul_pow2 by lia.
    rewrite (lor_add 16 (_ * 2 ^ 16) (_ * 2 ^ 8)) by arith.
    rewrite (lor_add 8) by arith. reflexivity. }
  rewrite !land_63, !Z.shiftr_div_pow2 by lia. cbv zeta.
  assert (Hs : (val / 2 ^ 18) mod 64 * 2 ^ 18 + (val / 2 ^ 12) mod 64 * 2 ^ 12 +
               (val / 2 ^ 6) mod 64 * 2 ^ 6 + val mod 64 = val).
  { rewrite Hval. arith. }
  rewrite Hs, Hval. repeat f_equal; arith.
Qed.

Lemma encode2 (b0 b1 : Z) :
  is_byte b0 -> is_byte b1 ->
  take 2 (quantum (Z.land (Z.shiftr (Z.lor (Z.shiftl b0 16) (Z.shiftl b1 8)) 18) 63)
                  (Z.land (Z.shiftr (Z.lor (Z.shiftl b0 16) (Z.shiftl b1 8)) 12) 63)
                  (Z.land (Z.shiftr (Z.lor (Z.shiftl b0 16) (Z.shiftl b1 8)) 6) 63) 0)
  = [b0; b1].
Proof.
  unfold is_byte. intros H0 H1.
  set (val := Z.lor (Z.shiftl b0 16) (Z.shiftl b1 8)).
  rewrite quantum_arith by (apply sextet_range || lia).
  assert (Hval : val = b0 * 2 ^ 16 + b1 * 2 ^ 8).
  { unfold val. rewrite !Z.shiftl_mul_pow2 by lia.
    rewrite (lor_add 16) by arith. reflexivity. }
  rewrite !land_63, !Z.shiftr_div_pow2 by lia. cbv zeta. cbn [take].
  assert (Hs : (val / 2 ^ 18) mod 64 * 2 ^ 18 + (val / 2 ^ 12) mod 64 * 2 ^ 12 +
               (val / 2 ^ 6) mod 64 * 2 ^ 6 + 0 = val).
  { rewrite Hval. arith. }
  rewrite Hs, Hval. repeat f_equal; arith.
Qed.

Lemma encode1 (b0 : Z) :
  is_byte b0 ->
  take 1 (quantum (Z.land (Z.shiftr (Z.shiftl b0 16) 18) 63)
                  (Z.land (Z.shiftr (Z.shiftl b0 16) 12) 63) 0 0)
  = [b0].
Proof.
  unfold is_byte. intros H0.
  rewrite quantum_arith by (apply sextet_range || lia).
  rewrite !land_63, !Z.shiftr_div_pow2, !Z.shiftl_mul_pow2 by lia.
  cbv zeta. cbn [take]. f_equal. arith.
Qed.

(** Induction on byte strings three bytes at a time. *)
Lemma list_ind3 {A} (P : list A -> Prop) :
  P [] -> (forall a, P [a]) -> (forall a b, P [a; b]) ->
  (forall a b c l, P l -> P (a :: b :: c :: l)) ->
  forall l, P l.
Proof.
  intros H0 H1 H2 H3 l.
  enough (P l /\ (forall a, P (a :: l)) /\ (forall a b, P (a :: b :: l))) by tauto.
  induction l as [|x l (IH0 & IH1 & IH2)]; auto.
Qed.

(** Decoding undoes encoding. *)
Lemma decode_encode (bs : list Z) :
  Forall is_byte bs -> DecodeString (EncodeToString bs) = Some bs.
Proof.
  unfold DecodeString. induction bs as [|b0|b0 b1|b0 b1 b2 bs IH] using list_ind3;
    intros Hb.
  - reflexivity.
  - apply Forall_cons in Hb as [H0 _].
    cbn [EncodeToString]. rewrite !decodeLoop_enc by apply sextet_range.
    cbn [app decodeLoop]. rewrite encode1 by trivial. reflexivity.
  - apply Forall_cons in Hb as [H0 Hb]. apply Forall_cons in Hb as [H1 _].
    cbn [EncodeToString]. rewrite !decodeLoop_enc by apply sextet_range.
    cbn [app decodeLoop]. rewrite encode2 by trivial. reflexivity.
  - apply Forall_cons in Hb as [H0 Hb]. apply Forall_cons in Hb as [H1 Hb].
    apply Forall_cons in Hb as [H2 Hb].
    cbn [EncodeToString]. rewrite !decodeLoop_enc by apply sextet_range.
    cbn [app]. rewrite IH by trivial. rewrite encode3 by trivial. reflexivity.
Qed.

(** The encoding uses the alphabet only: it holds no dot. *)
Lemma encode_no_dot (bs : list Z) : Forall (fun c => c <> 46) (EncodeToString bs).
Proof.
  induction bs as [|b0|b0 b1|b0 b1 b2 bs IH] using list_ind3;
    cbn [EncodeToString]; repeat constructor; trivial;
    apply sextet_facts, sextet_range.
Qed.

(** A text that holds a dot is corrupt input. *)
Lemma decode_dot (s dbuf : list Z) : In 46 s -> decodeLoop s dbuf = None.
Proof.
  revert dbuf. induction s as [|c s IH]; intros dbuf Hin; [destruct Hin|].
  cbn [decodeLoop]. destruct Hin as [-> | Hin].
  - reflexivity.
  - destruct (decodeMap c =? 255).
    + destruct ((c =? 10) || (c =? 13)); [apply IH, Hin | reflexivity].
    + destruct dbuf as [|d0 [|d1 [|d2 [|d3 dbuf]]]]; try apply IH, Hin.
      rewrite (IH [] Hin). reflexivity.
Qed.

End Base64Facts.

Module SHA256Facts.
Import Bytes SHA256 BytesFacts.
Local Open Scope Z_scope.

Lemma Sum256_length (m : list Z) : length (Sum256 m) = 32%nat.
Proof. reflexivity. Qed.

Lemma Sum256_bytes (m : list Z) : Forall is_byte (Sum256 m).
Proof.
  unfold Sum256. cbv zeta. repeat (apply Forall_app; split); apply PutUint32_bytes.
Qed.

Lemma HMAC_length (key m : list Z) : length (HMAC key m) = 32%nat.
Proof. apply Sum256_length. Qed.

Lemma HMAC_bytes (key m : list Z) : Forall is_byte (HMAC key m).
Proof. apply Sum256_bytes. Qed.

(** Known answers: FIPS 180-2 ("abc") and RFC 4231, test case 2. *)
Example sha256_abc :
  SHA256.Sum256 (Bytes.of_string "abc") =
  [0xba; 0x78; 0x16; 0xbf; 0x8f; 0x01; 0xcf; 0xea; 0x41; 0x41; 0x40; 0xde; 0x5d; 0xae; 0x22; 0x23;
   0xb0; 0x03; 0x61; 0xa3; 0x96; 0x17; 0x7a; 0x9c; 0xb4; 0x10; 0xff; 0x61; 0xf2; 0x00; 0x15; 0xad]%Z.
Proof. vm_compute. reflexivity. Qed.

Example hmac_rfc4231_2 :
  SHA256.HMAC (Bytes.of_string "Jefe") (Bytes.of_string "what do ya want for nothing?") =
  [0x5b; 0xdc; 0xc1; 0x46; 0xbf; 0x60; 0x75; 0x4e; 0x6a; 0x04; 0x24; 0x26; 0x08; 0x95; 0x75; 0xc7;
   0x5a; 0x00; 0x3f; 0x08; 0x9d; 0x27; 0x39; 0x83; 0x9d; 0xec; 0x58; 0xb9; 0x64; 0xec; 0x38; 0x43]%Z.
Proof. vm_compute. reflexivity. Qed.

End SHA256Facts.

Module TokenFacts.
Import Bytes Base64 Token BytesFacts Base64Facts SHA256Facts.
Local Open Scope Z_scope.

Lemma sign_length (s : TokenSigner) (code payload : list Z) :
  length (take 16 (sign s code payload)) = 16%nat.
Proof. rewrite length_take. unfold sign. rewrite HMAC_length. reflexivity. Qed.

Lemma sign_bytes (s : TokenSigner) (code payload : list Z) :
  Forall is_byte (take 16 (sign s code payload)).
Proof. apply Forall_take, HMAC_bytes. Qed.

Lemma SplitN2_app (a b : list Z) :
  Forall (fun c => c <> 46) a -> SplitN2 (a ++ 46 :: b) = Some (a, b).
Proof.
  induction 1 as [|c a Hc _ IH]; cbn [app SplitN2].
  - reflexivity.
  - destruct (c =? 46) eqn:E; [lia|]. rewrite IH. reflexivity.
Qed.

Lemma validate_parts (s : TokenSigner) (now : Z) (code part0 part1 : list Z) :
  secret s <> [] ->
  Forall (fun c => c <> 46) part0 ->
  ValidateAndExtractClickID s now code (part0 ++ of_string "." ++ part1) =
  match DecodeString part0, DecodeString part1 with
  | Some payload, Some sigProvided => verify s now code payload sigProvided
  | _, _ => Err ErrInvalidToken
  end.
Proof.
  intros Hs H0. unfold ValidateAndExtractClickID.
  destruct (len (secret s) =? 0) eqn:E.
  { destruct (secret s); [congruence | discriminate]. }
  change (of_string "." ++ part1) with (46 :: part1).
  rewrite SplitN2_app by trivial.
  destruct (DecodeString part0); [|reflexivity].
  destruct (DecodeString part1); reflexivity.
Qed.

End TokenFacts.

Module TokenTheorems.
Import Bytes Base64 Token BytesFacts Base64Facts SHA256Facts TokenFacts.
Local Open Scope Z_scope.

Lemma issue_ok (s : TokenSigner) (now : Z) (rnd code clickID : list Z) :
  secret s <> [] ->
  IssueWithClickID s now (Some rnd) code clickID =
  let payload :=
    if negb (len clickID =? 0) then
      PutUint16 (uint16 (len clickID)) ++ clickID ++
      PutUint32 (uint32 (Unix (now + ttl s))) ++ rnd
    else PutUint32 (uint32 (Unix (now + ttl s))) ++ rnd in
  Ok (EncodeToString payload ++ of_string "." ++
      EncodeToString (take 16 (sign s code payload))).
Proof.
  intros Hs. unfold IssueWithClickID.
  destruct (len (secret s) =? 0) eqn:E; [|reflexivity].
  destruct (secret s); [congruence | discriminate].
Qed.

(** C4: with a non-empty secret, the token issued for a code with the click
    id [abc] validates for that code at every instant up to the second of
    its expiry, and the click id read back is [abc]. [rnd] is what
    [rand.Read] wrote into the payload. *)
Theorem token_round_trip (s : TokenSigner) (now now' : Z) (rnd code : list Z) :
  secret s <> [] ->
  length rnd = 8%nat -> Forall is_byte rnd ->
  Unix now' <= uint32 (Unix (now + ttl s)) ->
  exists tok,
    IssueWithClickID s now (Some rnd) code (of_string "abc") = Ok tok /\
    ValidateAndExtractClickID s now' code tok = Ok (of_string "abc").
Proof.
  intros Hs Hlen Hrnd Hexp.
  rewrite issue_ok by trivial. cbv zeta.
  change (negb (len (of_string "abc") =? 0)) with true. cbv iota.
  eexists. split; [reflexivity|].
  set (e := uint32 (Unix (now + ttl s))) in *.
  assert (He : 0 <= e < 2 ^ 32) by (apply Z.mod_pos_bound; lia).
  set (payload := PutUint16 _ ++ _).
  assert (Hpb : Forall is_byte payload).
  { unfold payload. repeat (apply Forall_app; split); trivial.
    - apply PutUint16_bytes.
    - apply of_string_bytes.
    - apply PutUint32_bytes. }
  rewrite validate_parts by (trivial; apply encode_no_dot).
  rewrite !decode_encode by (trivial; apply sign_bytes).
  unfold verify.
  assert (Hl : len (take 16 (sign s code payload)) = 16).
  { unfold len. rewrite sign_length. reflexivity. }
  rewrite Hl. rewrite bool_decide_true by reflexivity.
  do 8 (destruct rnd as [|? rnd]; [discriminate|]).
  destruct rnd; [|discriminate].
  change (len payload) with 17.
  change (Uint16 (slice 0 2 payload)) with 3.
  change (negb (16 =? 16)) with false. change (negb true) with false.
  change (17 <? 4) with false. change (14 <? 17) with true.
  change (3 + 2 + 12 <=? 17) with true. cbv iota beta.
  change (slice 2 (2 + 3) payload) with (of_string "abc").
  change (slice 0 4 (drop (Z.to_nat (2 + 3)) payload)) with (PutUint32 e ++ []).
  rewrite Uint32_PutUint32 by trivial.
  destruct (e <? Unix now') eqn:E; [lia | reflexivity].
Qed.

End TokenTheorems.

Module TokenTamper.
Import Bytes Base64 Token BytesFacts Base64Facts SHA256Facts TokenFacts TokenTheorems.
Local Open Scope Z_scope.

Lemma validate_decoded (s : TokenSigner) (now : Z) (code token cid : list Z) :
  ValidateAndExtractClickID s now code token = Ok cid ->
  exists payload,
    decoded token = Some (payload, take 16 (sign s code payload)).
Proof.
  unfold ValidateAndExtractClickID, decoded.
  destruct (len (secret s) =? 0); [discriminate|].
  destruct (SplitN2 token) as [[part0 part1]|]; [|discriminate].
  destruct (DecodeString part0) as [payload|]; [|discriminate].
  destruct (DecodeString part1) as [sg|]; [|discriminate].
  destruct (negb (len sg =? 16)); [discriminate|].
  destruct (bool_decide (sg = take 16 (sign s code payload))) eqn:E; [|discriminate].
  apply bool_decide_eq_true in E. subst sg. intros _. eauto.
Qed.

Lemma decoded_parts (part0 part1 : list Z) :
  Forall (fun c => c <> 46) part0 ->
  decoded (part0 ++ 46 :: part1) =
  match DecodeString part0, DecodeString part1 with
  | Some payload, Some sigProvided => Some (payload, sigProvided)
  | _, _ => None
  end.
Proof. intros H. unfold decoded. rewrite SplitN2_app by trivial. reflexivity. Qed.

(** A dot written into the first part cuts the token there, and leaves the
    old dot in the second part. *)
Lemma decoded_early_dot (part0 part1 : list Z) (i : nat) :
  Forall (fun c => c <> 46) part0 -> (i < length part0)%nat ->
  decoded (<[i := 46]> part0 ++ 46 :: part1) = None.
Proof.
  intros H Hi. rewrite insert_take_drop by trivial.
  rewrite <- app_assoc. cbn [app].
  unfold decoded. rewrite SplitN2_app by (apply Forall_take, H).
  unfold DecodeString at 2. rewrite decode_dot.
  - destruct (DecodeString _); reflexivity.
  - apply in_or_app. right. left. reflexivity.
Qed.

Lemma flip_encoded (s : TokenSigner) (now : Z) (code payload cid : list Z)
    (i : nat) (k c : Z) :
  Forall is_byte payload ->
  let sg := take 16 (sign s code payload) in
  let tok := EncodeToString payload ++ of_string "." ++ EncodeToString sg in
  tok !! i = Some c -> c <> 46 ->
  ValidateAndExtractClickID s now code (flip_bit i k tok) = Ok cid ->
  exists payload',
    decoded (flip_bit i k tok) = Some (payload', sg) /\
    take 16 (sign s code payload') = sg /\
    ((length (EncodeToString payload) < i)%nat -> payload' = payload).
Proof.
  intros Hp sg tok Hi Hc Hv.
  assert (Hsg : Forall is_byte sg) by apply sign_bytes.
  destruct (validate_decoded _ _ _ _ _ Hv) as [p' Hd].
  exists p'. remember (take 16 (sign s code p')) as g' eqn:Hg.
  assert (Hs : sg = take 16 (sign s code payload)) by reflexivity.
  clear Hv. clearbody sg. revert Hd. unfold flip_bit. rewrite Hi.
  set (c' := Z.lxor c (2 ^ k)). subst tok. change (of_string ".") with [46] in *.
  cbn [app] in *.
  destruct (lt_eq_lt_dec i (length (EncodeToString payload))) as [[Hlt|Heq]|Hgt].
  - rewrite insert_app_l by trivial.
    destruct (Z.eq_dec c' 46) as [E|E].
    + rewrite E, decoded_early_dot by (trivial || apply encode_no_dot).
      discriminate.
    + rewrite decoded_parts.
      * rewrite (decode_encode sg) by trivial.
        destruct (DecodeString _) as [q|]; [|discriminate].
        intros Hd. assert (g' = sg) as -> by congruence.
        repeat split; [trivial | lia].
      * apply Forall_insert; [apply encode_no_dot | trivial].
  - subst i. rewrite lookup_app_r, Nat.sub_diag in Hi by lia.
    injection Hi as <-. congruence.
  - rewrite insert_app_r_alt by lia.
    replace (i - length (EncodeToString payload))%nat
      with (S (i - length (EncodeToString payload) - 1)) by lia.
    cbn [insert list_insert].
    rewrite decoded_parts by apply encode_no_dot.
    rewrite (decode_encode payload) by trivial.
    destruct (DecodeString _) as [q|]; [|discriminate].
    intros Hd. assert (payload = p') as -> by congruence.
    assert (g' = sg) as -> by congruence.
    repeat split; trivial.
Qed.

End TokenTamper.

Module TokenClaims.
Import Bytes Base64 Token BytesFacts Base64Facts SHA256Facts TokenFacts TokenTheorems TokenTamper.
Local Open Scope Z_scope.

Lemma validate_error (s : TokenSigner) (now : Z) (code token : list Z) (e : error) :
  secret s <> [] ->
  ValidateAndExtractClickID s now code token = Err e -> e = ErrInvalidToken.
Proof.
  intros Hs. unfold ValidateAndExtractClickID.
  destruct (len (secret s) =? 0) eqn:E.
  { destruct (secret s); [congruence | discriminate]. }
  repeat match goal with
  | |- context [match ?x with _ => _ end] => destruct x
  end; congruence.
Qed.

Lemma issue_secret (s : TokenSigner) (now : Z) (rnd : option (list Z))
    (code clickID tok : list Z) :
  IssueWithClickID s now rnd code clickID = Ok tok -> secret s <> [].
Proof.
  unfold IssueWithClickID. intros H E. rewrite E in H. discriminate.
Qed.

Lemma issue_encoded (s : TokenSigner) (now : Z) (rnd code clickID tok : list Z) :
  Forall is_byte rnd -> Forall is_byte clickID ->
  IssueWithClickID s now (Some rnd) code clickID = Ok tok ->
  exists payload,
    Forall is_byte payload /\
    tok = EncodeToString payload ++ of_string "." ++
          EncodeToString (take 16 (sign s code payload)).
Proof.
  intros Hr Hc H. pose proof (issue_secret _ _ _ _ _ _ H) as Hs.
  rewrite issue_ok in H by trivial. cbv zeta in H.
  injection H as <-. eexists. split; [|reflexivity].
  destruct (negb _);
    repeat first [ apply Forall_cons_2; [apply Z.mod_pos_bound; lia|]
                 | apply Forall_app_2; [trivial|] ]; trivial.
Qed.

Lemma decoded_issued (s : TokenSigner) (code payload : list Z) :
  Forall is_byte payload ->
  decoded (EncodeToString payload ++ of_string "." ++
           EncodeToString (take 16 (sign s code payload))) =
  Some (payload, take 16 (sign s code payload)).
Proof.
  intros Hp. change (of_string ".") with [46]. cbn [app].
  rewrite decoded_parts by apply encode_no_dot.
  rewrite !decode_encode by (trivial || apply sign_bytes). reflexivity.
Qed.

Lemma dot_before (part0 part1 : list Z) (i : nat) :
  Forall (fun c => c <> 46) part0 ->
  In 46 (take i (part0 ++ part1)) -> (length part0 < i)%nat.
Proof.
  intros H Hin. destruct (le_lt_dec i (length part0)) as [Hle|]; [|trivial].
  rewrite take_app_le in Hin by trivial.
  apply (Forall_take _ i) in H. rewrite Forall_forall in H.
  apply list_elem_of_In, H in Hin. congruence.
Qed.

(** C3 (amended): a token issued for a code decodes to its payload and the
    first 16 bytes of the payload's MAC; after flipping one bit of one
    character of either segment, Validate either fails with ErrInvalidToken
    or the flipped token still decodes to the very same 16 signature bytes
    and to a payload whose truncated MAC equals them (the same payload when
    the flip is in the signature segment).  So a flip passes only when the
    bytes the signature segment decodes to are unchanged. *)
Theorem tamper_evidence (s : TokenSigner) (now now' : Z)
    (rnd code clickID tok : list Z) (i : nat) (k c : Z) :
  Forall is_byte rnd -> Forall is_byte clickID ->
  IssueWithClickID s now (Some rnd) code clickID = Ok tok ->
  tok !! i = Some c -> c <> 46 ->
  exists payload,
    decoded tok = Some (payload, take 16 (sign s code payload)) /\
    (Validate s now' code (flip_bit i k tok) = Some ErrInvalidToken \/
     exists payload',
       decoded (flip_bit i k tok) =
         Some (payload', take 16 (sign s code payload)) /\
       take 16 (sign s code payload') = take 16 (sign s code payload) /\
       (In 46 (take i tok) -> payload' = payload)).
Proof.
  intros Hr Hc Hi Hl Hd.
  pose proof (issue_secret _ _ _ _ _ _ Hi) as Hs.
  destruct (issue_encoded _ _ _ _ _ _ Hr Hc Hi) as (payload & Hp & ->).
  exists payload. split; [apply decoded_issued, Hp|].
  unfold Validate.
  destruct (ValidateAndExtractClickID s now' code _) as [cid|e] eqn:Hv.
  - right.
    destruct (flip_encoded _ _ _ _ _ _ _ _ Hp Hl Hd Hv) as (p' & H1 & H2 & H3).
    exists p'. repeat split; trivial.
    intros Hin. apply H3. eapply dot_before; [apply encode_no_dot | exact Hin].
  - left. f_equal. eapply validate_error; eauto.
Qed.

Lemma tamper_evidence_witness :
  exists payload,
    decoded TokenSample.token =
      Some (payload, take 16 (sign TokenSample.signer TokenSample.code payload)) /\
    (Validate TokenSample.signer TokenSample.now TokenSample.code
       (flip_bit 3 0 TokenSample.token) = Some ErrInvalidToken \/
     exists payload',
       decoded (flip_bit 3 0 TokenSample.token) =
         Some (payload', take 16 (sign TokenSample.signer TokenSample.code payload)) /\
       take 16 (sign TokenSample.signer TokenSample.code payload') =
         take 16 (sign TokenSample.signer TokenSample.code payload) /\
       (In 46 (take 3 TokenSample.token) -> payload' = payload)).
Proof.
  apply (tamper_evidence TokenSample.signer TokenSample.now TokenSample.now
           TokenSample.rnd TokenSample.code [] TokenSample.token 3 0 120).
  - repeat constructor; unfold is_byte; lia.
  - constructor.
  - vm_compute. reflexivity.
  - reflexivity.
  - lia.
Defined.

(** C3 (as stated) fails: the token issued for code [promo] at the sample
    instant ends in the character Q, which carries two bits of the last
    signature byte and four unused bits; flipping bit 1 of that character
    gives S, a different token text that Validate accepts.  The same holds
    for the token carrying the click id [abc] and bit 3 of its last
    character. *)
Lemma tamper_trailing_bits_accepted :
  Issue TokenSample.signer TokenSample.now (Some TokenSample.rnd) TokenSample.code
    = Ok TokenSample.token /\
  TokenSample.token !! 38%nat = Some 81 /\
  flip_bit 38 1 TokenSample.token <> TokenSample.token /\
  Validate TokenSample.signer TokenSample.now TokenSample.code
    (flip_bit 38 1 TokenSample.token) = None /\
  IssueWithClickID TokenSample.signer TokenSample.now (Some TokenSample.rnd)
    TokenSample.code (of_string "abc") = Ok TokenSample.click_token /\
  TokenSample.click_token !! 45%nat = Some 103 /\
  flip_bit 45 3 TokenSample.click_token <> TokenSample.click_token /\
  Validate TokenSample.signer TokenSample.now TokenSample.code
    (flip_bit 45 3 TokenSample.click_token) = None.
Proof. vm_compute. repeat split; discriminate. Qed.

Lemma token_round_trip_witness :
  exists tok,
    IssueWithClickID TokenSample.signer TokenSample.now (Some TokenSample.rnd)
      TokenSample.code (of_string "abc") = Ok tok /\
    ValidateAndExtractClickID TokenSample.signer (TokenSample.now + 59 * 1000000000)
      TokenSample.code tok = Ok (of_string "abc").
Proof.
  apply (token_round_trip TokenSample.signer TokenSample.now
           (TokenSample.now + 59 * 1000000000) TokenSample.rnd TokenSample.code).
  - discriminate.
  - reflexivity.
  - repeat constructor; unfold is_byte; lia.
  - vm_compute. discriminate.
Defined.

End TokenClaims.

Module RepoFacts.
Import StateM Repo.
Local Open Scope string_scope.
Local Open Scope Z_scope.

(** Unfolding of the monad, of the backends and of the repository. *)
Ltac run :=
  cbv [GetByCode probeCache loadFromStore bloomExists bloomAdd Create Update
       initBloomFilter NewLinkRepository
       redis_Exists redis_BF_RESERVE redis_BF_ADD redis_BF_EXISTS
       redis_Get redis_Set redis_Del db_Create db_First db_Updates
       redis_up db_up log bind ret get modify when
       set_links set_kv set_bloom set_clock set_redis_faults set_db_faults set_trace
       links kv bloom clock redis_faults db_faults trace
       redis_nil bloomSupported cached advance
       fst snd negb orb andb] in *.

Lemma count_cons (p : call -> bool) (c : call) ls k b t rf df tr :
  count p (mkWorld ls k b t rf df (c :: tr)) =
  ((if p c then 1 else 0) + count p (mkWorld ls k b t rf df tr))%nat.
Proof.
  unfold count. cbn [trace]. rewrite filter_cons.
  destruct (p c); destruct (decide _); try congruence; reflexivity.
Qed.

Lemma bloomExists_up (r : linkRepository) (code : string) (w : World) :
  redis_faults w = [] ->
  bloomExists r code w =
  (negb (bloomSupported r) || redis_nil r || bool_decide (code ∈ default ∅ (bloom w)),
   asked r code w).
Proof.
  destruct r as [rnil sup], w as [ls k b t rf df tr]. cbn [redis_faults].
  intros ->. unfold asked. destruct sup, rnil; try reflexivity.
  run. destruct (bool_decide _); reflexivity.
Qed.

Section Repository.
Context (json_Marshal : Link -> option string).
Context (json_Unmarshal : string -> option Link).

Lemma loadFromStore_up (r : linkRepository) (code : string) (w : World) :
  redis_nil r = false -> redis_faults w = [] -> db_faults w = [] ->
  loadFromStore json_Marshal r code (cacheKeyPrefix +:+ code) w =
  match links w !! code with
  | Some l => (Ok l, loaded json_Marshal code l w)
  | None => (Err ErrLinkNotFound, missed code w)
  end.
Proof.
  destruct r as [rnil sup], w as [ls k b t rf df tr].
  cbn [redis_nil redis_faults db_faults links]. intros -> -> ->.
  unfold loaded, missed. run.
  destruct (ls !! code) as [l|]; [|reflexivity].
  destruct (json_Marshal l); reflexivity.
Qed.

Lemma GetByCode_up (r : linkRepository) (code : string) (w : World) :
  redis_nil r = false -> redis_faults w = [] ->
  (bloomExists r code w).1 = true ->
  GetByCode json_Marshal json_Unmarshal r code w =
  let w' := set_trace (cons (RedisGet (cacheKeyPrefix +:+ code))) (asked r code w) in
  match cached w code with
  | Some v =>
      if String.eqb v cacheNullValue then (Err ErrLinkNotFound, w')
      else match json_Unmarshal v with
           | Some l => (Ok l, w')
           | None => loadFromStore json_Marshal r code (cacheKeyPrefix +:+ code) w'
           end
  | None => loadFromStore json_Marshal r code (cacheKeyPrefix +:+ code) w'
  end.
Proof.
  intros Hn Hr. rewrite bloomExists_up by trivial. cbn [fst]. intros Hf.
  unfold GetByCode, bind at 1. rewrite bloomExists_up, Hf by trivial.
  cbn [negb]. unfold bind at 1.
  destruct r as [rnil sup], w as [ls k b t rf df tr].
  cbn [redis_nil redis_faults] in *. subst rnil rf.
  unfold asked, cached. cbn [bloomSupported redis_nil orb].
  destruct sup; cbn [negb].
  all: unfold probeCache, redis_Get; run.
  all: destruct (k !! _) as [[v e]|]; [|reflexivity].
  all: destruct (t <? e); [|reflexivity].
  all: destruct (String.eqb v cacheNullValue); [reflexivity|].
  all: destruct (json_Unmarshal v); reflexivity.
Qed.

Lemma Update_up (r : linkRepository) (link old : Link) (w : World) :
  redis_nil r = false -> redis_faults w = [] -> db_faults w = [] ->
  links w !! Code link = Some old ->
  Update r link w =
  (updated old link (clock w), None,
   set_kv (delete (cacheKeyPrefix +:+ Code old))
     (set_links (insert (Code link) (updated old link (clock w)))
        (set_trace (fun tr => RedisDel (cacheKeyPrefix +:+ Code old)
                              :: DbSelect (Code link) :: DbUpdate (Code link) :: tr) w))).
Proof.
  destruct r as [rnil sup], w as [ls k b t rf df tr].
  cbn [redis_nil redis_faults db_faults links clock]. intros -> -> -> Hl.
  unfold updated. run. rewrite Hl. cbn [Z.eqb]. cbv beta iota.
  rewrite lookup_insert_eq. reflexivity.
Qed.

End Repository.
End RepoFacts.

Module RepoClaims.
Import StateM Repo RepoFacts.
Local Open Scope string_scope.
Local Open Scope Z_scope.

Section Repository.
Context (json_Marshal : Link -> option string).
Context (json_Unmarshal : string -> option Link).

(** C7: when the filter answers that a code is absent, GetByCode returns
    ErrLinkNotFound after that one BF.EXISTS call: it reads no cache key,
    writes none, and does not read the links table. *)
Theorem filter_short_circuit (r : linkRepository) (code : string) (w : World) :
  (bloomExists r code w).1 = false ->
  let out := GetByCode json_Marshal json_Unmarshal r code w in
  out.1 = Err ErrLinkNotFound /\
  trace out.2 = BfExists bloomKey code :: trace w /\
  count is_cache_read out.2 = count is_cache_read w /\
  count is_cache_write out.2 = count is_cache_write w /\
  count is_db_read out.2 = count is_db_read w /\
  kv out.2 = kv w /\ links out.2 = links w.
Proof.
  destruct r as [rnil sup], w as [ls k b t rf df tr].
  destruct sup, rnil; try discriminate; destruct rf as [|[] rf]; try discriminate.
  all: run; destruct (bool_decide _); try discriminate.
  all: intros _; repeat split; reflexivity.
Qed.

Lemma GetByCode_absent (r : linkRepository) (code : string) (w : World) :
  redis_nil r = false ->
  redis_faults w = [] -> db_faults w = [] ->
  links w !! code = None ->
  (bloomExists r code w).1 = true ->
  (forall v, cached w code = Some v -> v <> cacheNullValue -> json_Unmarshal v = None) ->
  GetByCode json_Marshal json_Unmarshal r code w =
  (Err ErrLinkNotFound,
   if bool_decide (cached w code = Some cacheNullValue)
   then set_trace (cons (RedisGet (cacheKeyPrefix +:+ code))) (asked r code w)
   else missed code
          (set_trace (cons (RedisGet (cacheKeyPrefix +:+ code))) (asked r code w))).
Proof.
  intros Hn Hr Hdb Hl Hf Hc.
  rewrite GetByCode_up by trivial. cbv zeta.
  assert (Hmiss : loadFromStore json_Marshal r code (cacheKeyPrefix +:+ code)
            (set_trace (cons (RedisGet (cacheKeyPrefix +:+ code))) (asked r code w)) =
          (Err ErrLinkNotFound,
           missed code (set_trace (cons (RedisGet (cacheKeyPrefix +:+ code))) (asked r code w)))).
  { rewrite loadFromStore_up; trivial.
    - replace (links _ !! code) with (links w !! code); [now rewrite Hl|].
      unfold asked. destruct (_ || _); reflexivity.
    - unfold asked. destruct (_ || _); exact Hr.
    - unfold asked. destruct (_ || _); exact Hdb. }
  destruct (cached w code) as [v|] eqn:Hv.
  - destruct (String.eqb v cacheNullValue) eqn:Hnull.
    + apply String.eqb_eq in Hnull. subst v.
      rewrite bool_decide_eq_true_2 by trivial. reflexivity.
    + apply String.eqb_neq in Hnull.
      rewrite (Hc v) by trivial.
      rewrite bool_decide_eq_false_2 by congruence. exact Hmiss.
  - rewrite bool_decide_eq_false_2 by congruence. exact Hmiss.
Qed.

Lemma GetByCode_absent_state (r : linkRepository) (code : string) (w : World) :
  redis_nil r = false ->
  redis_faults w = [] -> db_faults w = [] ->
  links w !! code = None ->
  (bloomExists r code w).1 = true ->
  (forall v, cached w code = Some v -> v <> cacheNullValue -> json_Unmarshal v = None) ->
  let out := GetByCode json_Marshal json_Unmarshal r code w in
  out.1 = Err ErrLinkNotFound /\
  (links out.2 = links w /\ bloom out.2 = bloom w /\ clock out.2 = clock w /\
   redis_faults out.2 = [] /\ db_faults out.2 = []) /\
  (cached w code = Some cacheNullValue ->
   kv out.2 = kv w /\ count is_db_read out.2 = count is_db_read w) /\
  (cached w code <> Some cacheNullValue ->
   kv out.2 = <[cacheKeyPrefix +:+ code := (cacheNullValue, clock w + cacheNullTTL)]> (kv w) /\
   count is_db_read out.2 = S (count is_db_read w) /\
   exists rest,
     trace out.2 =
       RedisSet (cacheKeyPrefix +:+ code) cacheNullValue cacheNullTTL ::
       DbSelect code :: rest).
Proof.
  intros Hn Hr Hdb Hl Hf Hc out. subst out.
  rewrite GetByCode_absent by trivial.
  destruct r as [rnil sup], w as [ls k b t rf df tr].
  cbn [redis_nil redis_faults db_faults] in *. subst rnil rf df.
  unfold asked, missed.
  destruct sup; case_bool_decide as Hv;
    cbn [fst snd bloomSupported redis_nil orb negb set_trace set_kv
         links kv bloom clock redis_faults db_faults trace];
    (split; [reflexivity|]); (split; [repeat split|]);
    (split; [intros Hv'|intros Hv']); try congruence;
    rewrite ?count_cons; cbn [is_db_read]; repeat split; eauto.
Qed.

Lemma bloomExists_frame (r : linkRepository) (code : string) (w w' : World) :
  bloom w' = bloom w -> redis_faults w' = redis_faults w ->
  (bloomExists r code w').1 = (bloomExists r code w).1.
Proof.
  destruct r as [rnil sup], w as [ls k b t rf df tr], w' as [ls' k' b' t' rf' df' tr'].
  cbn [bloom redis_faults]. intros -> ->.
  destruct sup, rnil; try reflexivity.
  destruct rf as [|[] rf]; run; try reflexivity.
Qed.

(** C8: for a code without a row that passes the filter, with Redis and the
    database answering and no decodable link cached under the code, two
    calls of GetByCode less than [cacheNullTTL] apart both return
    ErrLinkNotFound and read the links table at most once between them; when
    the first call finds no sentinel it reads the table, then writes the
    sentinel [NULL] with [cacheNullTTL], and the second call reads nothing. *)
Theorem negative_caching (r : linkRepository) (code : string) (w : World) (d : Z) :
  redis_nil r = false ->
  redis_faults w = [] -> db_faults w = [] ->
  links w !! code = None ->
  (bloomExists r code w).1 = true ->
  (forall v, cached w code = Some v -> v <> cacheNullValue -> json_Unmarshal v = None) ->
  0 <= d < cacheNullTTL ->
  let first := GetByCode json_Marshal json_Unmarshal r code w in
  let second := GetByCode json_Marshal json_Unmarshal r code (advance d first.2) in
  first.1 = Err ErrLinkNotFound /\
  second.1 = Err ErrLinkNotFound /\
  (count is_db_read second.2 <= count is_db_read w + 1)%nat /\
  (cached w code <> Some cacheNullValue ->
   (exists rest,
      trace first.2 =
        RedisSet (cacheKeyPrefix +:+ code) cacheNullValue cacheNullTTL ::
        DbSelect code :: rest) /\
   kv first.2 !! (cacheKeyPrefix +:+ code) =
     Some (cacheNullValue, clock w + cacheNullTTL) /\
   count is_db_read second.2 = count is_db_read first.2).
Proof.
  intros Hn Hr Hdb Hl Hf Hc Hd first second.
  destruct (GetByCode_absent_state r code w Hn Hr Hdb Hl Hf Hc)
    as (H1 & (Hls & Hb & Ht & Hrf & Hdf) & Hhit & Hmiss).
  fold first in H1, Hls, Hb, Ht, Hrf, Hdf, Hhit, Hmiss.
  assert (Hcached : forall v, cached (advance d first.2) code = Some v -> v = cacheNullValue).
  { intros v. unfold cached, advance at 1 2. cbn [kv clock set_clock]. rewrite Ht.
    destruct (decide (cached w code = Some cacheNullValue)) as [Hv|Hv].
    - destruct (Hhit Hv) as [-> _]. revert Hv. unfold cached.
      destruct (kv w !! _) as [[v' e]|]; [|discriminate].
      destruct (clock w <? e); [|discriminate].
      intros [= ->]. destruct (_ <? e); congruence.
    - destruct (Hmiss Hv) as [-> _]. rewrite lookup_insert_eq.
      destruct (_ <? _); congruence. }
  destruct (GetByCode_absent_state r code (advance d first.2)) as (H2 & _ & Hhit2 & Hmiss2);
    trivial.
  { rewrite <- Hl, <- Hls. reflexivity. }
  { rewrite <- Hf. apply bloomExists_frame; [exact Hb | ].
    unfold advance. cbn [set_clock redis_faults]. congruence. }
  { intros v Hv Hne. apply Hcached in Hv. contradiction. }
  fold second in H2, Hhit2, Hmiss2.
  change (count is_db_read (advance d first.2)) with (count is_db_read first.2) in *.
  repeat split; trivial.
  - destruct (decide (cached (advance d first.2) code = Some cacheNullValue)) as [Hv2|Hv2];
      [destruct (Hhit2 Hv2) as [_ ->] | destruct (Hmiss2 Hv2) as (_ & -> & _)];
      (destruct (decide (cached w code = Some cacheNullValue)) as [Hv|Hv];
       [destruct (Hhit Hv) as [_ ->] | destruct (Hmiss Hv) as (_ & -> & _)]); try lia.
    exfalso. apply Hv2. destruct (Hmiss Hv) as [Hk _].
    unfold cached, advance at 1 2. cbn [kv clock set_clock].
    rewrite Hk, lookup_insert_eq, Ht.
    replace (_ <? _) with true by (symmetry; apply Z.ltb_lt; lia). reflexivity.
  - apply Hmiss; trivial.
  - destruct (Hmiss H) as [-> _]. rewrite lookup_insert_eq. reflexivity.
  - apply Hhit2. destruct (Hmiss H) as [Hk _].
    unfold cached, advance at 1 2. cbn [kv clock set_clock].
    rewrite Hk, lookup_insert_eq, Ht.
    replace (_ <? _) with true by (symmetry; apply Z.ltb_lt; lia). reflexivity.
Qed.


(** C10: when the value cached under a code is neither the sentinel nor
    decodable as a link, GetByCode answers and calls exactly as it does with
    the key deleted: it reads the links table once and returns the row (or
    ErrLinkNotFound when there is none), and it overwrites the cache entry
    with the encoded row (or with the sentinel). *)
Theorem corrupt_entry_is_a_miss (r : linkRepository) (code v : string) (w : World) :
  redis_nil r = false ->
  redis_faults w = [] -> db_faults w = [] ->
  (bloomExists r code w).1 = true ->
  cached w code = Some v -> v <> cacheNullValue -> json_Unmarshal v = None ->
  let out := GetByCode json_Marshal json_Unmarshal r code w in
  let miss := GetByCode json_Marshal json_Unmarshal r code
                (set_kv (delete (cacheKeyPrefix +:+ code)) w) in
  out.1 = miss.1 /\
  trace out.2 = trace miss.2 /\
  count is_db_read out.2 = S (count is_db_read w) /\
  match links w !! code with
  | Some l =>
      out.1 = Ok l /\
      forall data, json_Marshal l = Some data ->
        kv out.2 !! (cacheKeyPrefix +:+ code) = Some (data, clock w + cacheTTL)
  | None =>
      out.1 = Err ErrLinkNotFound /\
      kv out.2 !! (cacheKeyPrefix +:+ code) = Some (cacheNullValue, clock w + cacheNullTTL)
  end.
Proof.
  intros Hn Hr Hdb Hf Hc Hv Hu out miss. subst out miss.
  rewrite !GetByCode_up; trivial.
  2:{ rewrite <- Hf. apply bloomExists_frame; reflexivity. }
  cbv zeta. rewrite Hc, Hu.
  apply String.eqb_neq in Hv. rewrite Hv.
  replace (cached (set_kv _ w) code) with (@None string).
  2:{ unfold cached. cbn [kv set_kv]. now rewrite lookup_delete_eq. }
  destruct r as [rnil sup], w as [ls k b t rf df tr].
  cbn [redis_nil redis_faults db_faults links clock] in *. subst rnil rf df.
  unfold asked.
  destruct sup; cbn [negb orb bloomSupported redis_nil];
    rewrite !loadFromStore_up by reflexivity;
    unfold missed, loaded;
    cbn [set_trace set_kv links kv bloom clock redis_faults db_faults trace];
    (destruct (ls !! code) as [l|]; [destruct (json_Marshal l) as [data|]|]);
    cbn [fst snd set_trace set_kv links kv bloom clock redis_faults db_faults trace];
    rewrite ?count_cons; cbn [is_db_read Nat.add];
    repeat split; try congruence;
    try (intros ? [= <-]); now rewrite lookup_insert_eq.
Qed.

(** C5: when the BF.ADD sent by Create is lost, Create still returns no
    error and the row is in the table, yet the filter answers that the code
    is absent and GetByCode returns ErrLinkNotFound for it. *)
Theorem create_can_hide_link (r : linkRepository) (link : Link) (w : World) :
  bloomSupported r = true -> redis_nil r = false ->
  db_faults w = [] -> redis_faults w = [true] ->
  links w !! Code link = None ->
  Code link ∉ default ∅ (bloom w) ->
  let created := Create r link w in
  created.1.2 = None /\
  is_Some (links created.2 !! Code link) /\
  (bloomExists r (Code link) created.2).1 = false /\
  (GetByCode json_Marshal json_Unmarshal r (Code link) created.2).1 = Err ErrLinkNotFound.
Proof.
  destruct r as [rnil sup], w as [ls k b t rf df tr].
  cbn [redis_nil bloomSupported redis_faults db_faults links bloom].
  intros -> -> -> -> Hl Hb. run. rewrite Hl. cbv beta iota.
  rewrite lookup_insert_eq, bool_decide_eq_false_2 by trivial.
  cbn [Z.eqb]. repeat split. eauto.
Qed.

End Repository.
End RepoClaims.

Module RepoWitness.
Import StateM Repo RepoFacts RepoClaims.
Local Open Scope string_scope.
Local Open Scope Z_scope.

Lemma filter_short_circuit_witness :
  (GetByCode RepoSample.json_Marshal RepoSample.json_Unmarshal
     RepoSample.repo "nope" RepoSample.world).1 = Err ErrLinkNotFound.
Proof.
  apply (filter_short_circuit RepoSample.json_Marshal RepoSample.json_Unmarshal
           RepoSample.repo "nope" RepoSample.world).
  vm_compute. reflexivity.
Defined.

Lemma negative_caching_witness :
  (GetByCode RepoSample.json_Marshal RepoSample.json_Unmarshal RepoSample.repo "ghost"
     (advance (10 * second)
        (GetByCode RepoSample.json_Marshal RepoSample.json_Unmarshal
           RepoSample.repo "ghost" RepoSample.haunted).2)).1 = Err ErrLinkNotFound.
Proof.
  apply (negative_caching RepoSample.json_Marshal RepoSample.json_Unmarshal
           RepoSample.repo "ghost" RepoSample.haunted (10 * second)).
  - reflexivity.
  - reflexivity.
  - reflexivity.
  - vm_compute. reflexivity.
  - vm_compute. reflexivity.
  - intros v H. vm_compute in H. discriminate.
  - unfold cacheNullTTL, second. lia.
Defined.


Lemma corrupt_entry_is_a_miss_witness :
  (GetByCode RepoSample.json_Marshal RepoSample.json_Unmarshal
     RepoSample.repo "promo" RepoSample.damaged).1 =
  (GetByCode RepoSample.json_Marshal RepoSample.json_Unmarshal RepoSample.repo "promo"
     (set_kv (delete (cacheKeyPrefix +:+ "promo")) RepoSample.damaged)).1.
Proof.
  apply (corrupt_entry_is_a_miss RepoSample.json_Marshal RepoSample.json_Unmarshal
           RepoSample.repo "promo" "{code:pro" RepoSample.damaged).
  - reflexivity.
  - reflexivity.
  - reflexivity.
  - vm_compute. reflexivity.
  - vm_compute. reflexivity.
  - discriminate.
  - reflexivity.
Defined.

Lemma create_can_hide_link_witness :
  (Create RepoSample.repo RepoSample.link RepoSample.flaky).1.2 = None /\
  is_Some (links (Create RepoSample.repo RepoSample.link RepoSample.flaky).2 !! "promo") /\
  (bloomExists RepoSample.repo "promo"
     (Create RepoSample.repo RepoSample.link RepoSample.flaky).2).1 = false /\
  (GetByCode RepoSample.json_Marshal RepoSample.json_Unmarshal RepoSample.repo "promo"
     (Create RepoSample.repo RepoSample.link RepoSample.flaky).2).1 = Err ErrLinkNotFound.
Proof.
  apply (create_can_hide_link RepoSample.json_Marshal RepoSample.json_Unmarshal
           RepoSample.repo RepoSample.link RepoSample.flaky).
  - reflexivity.
  - reflexivity.
  - reflexivity.
  - reflexivity.
  - vm_compute. reflexivity.
  - vm_compute. set_solver.
Defined.

End RepoWitness.

Module ClickFacts.
Import StateM Clicks.
Local Open Scope string_scope.
Local Open Scope Z_scope.

Ltac run :=
  cbv [Create UpdateStatus UpdateExpiredPendingStatus checkExpiredPendingEvents
       confirm handle db_up set_events bind ret get modify
       events db_faults fst snd] in *.

Lemma UpdateStatus_up (id status : string) (st : Store) :
  db_faults st = [] ->
  UpdateStatus id status st =
  (None, mkStore (alter (with_status status) id (events st)) []).
Proof. destruct st as [ev df]. cbn [db_faults]. intros ->. reflexivity. Qed.

Lemma sweep_up (c : ClickTimeoutChecker) (now : Z) (st : Store) :
  db_faults st = [] ->
  checkExpiredPendingEvents c now st =
  (tt, mkStore ((fun e => if expired_pending (now - ttl c) e
                          then with_status ClickStatusFailed e else e) <$> events st) []).
Proof. destruct st as [ev df]. cbn [db_faults]. intros ->. reflexivity. Qed.

End ClickFacts.

Module ClickClaims.
Import StateM Clicks ClickFacts.
Local Open Scope string_scope.
Local Open Scope Z_scope.

(** C1: a pending event older than the checker's TTL is marked FAILED by a
    sweep, and a confirmation that arrives after the sweep marks it SUCCESS:
    UpdateStatus changes a status that is already terminal. *)
Theorem late_confirmation_revives_failed_event
    (c : ClickTimeoutChecker) (now : Z) (id : string) (e : ClickEvent) (st : Store) :
  db_faults st = [] ->
  events st !! id = Some e ->
  Status e = ClickStatusPending -> Timestamp e < now - ttl c ->
  id <> "" ->
  let swept := (checkExpiredPendingEvents c now st).2 in
  let confirmed := (confirm false id swept).2 in
  Status <$> events swept !! id = Some ClickStatusFailed /\
  Status <$> events confirmed !! id = Some ClickStatusSuccess.
Proof.
  intros Hdb He Hs Ht Hid swept confirmed. subst confirmed swept.
  rewrite sweep_up by trivial. cbn [snd].
  unfold confirm. apply String.eqb_neq in Hid. rewrite Hid. cbn [negb andb].
  unfold bind at 1. rewrite UpdateStatus_up by reflexivity. cbn [snd ret events].
  rewrite lookup_alter_eq, lookup_fmap, He. cbn [fmap option_fmap option_map].
  unfold expired_pending. rewrite Hs.
  replace (Timestamp e <? now - ttl c) with true by (symmetry; apply Z.ltb_lt; lia).
  split; reflexivity.
Qed.

Lemma late_confirmation_revives_failed_event_witness :
  Status <$> events (checkExpiredPendingEvents ClickSample.checker
                       (1700000060 * 1000000000 + 500000000) ClickSample.store).2
               !! "abc" = Some ClickStatusFailed /\
  Status <$> events (confirm false "abc"
                       (checkExpiredPendingEvents ClickSample.checker
                          (1700000060 * 1000000000 + 500000000) ClickSample.store).2).2
               !! "abc" = Some ClickStatusSuccess.
Proof.
  apply (late_confirmation_revives_failed_event ClickSample.checker
           (1700000060 * 1000000000 + 500000000) "abc" ClickSample.event ClickSample.store).
  - reflexivity.
  - reflexivity.
  - reflexivity.
  - vm_compute. reflexivity.
  - discriminate.
Defined.

Section Consumer.
Context (json_Unmarshal : string -> option ClickEvent).

(** C2 (amended): when a message carries an event whose id is already in
    the table, Create fails with a duplicate key error, the table is left as
    it was, and the consumer answers with Nak. *)
Theorem redelivery_is_refused (data : string) (event : ClickEvent) (st : Store) :
  json_Unmarshal data = Some event ->
  db_faults st = [] ->
  is_Some (events st !! ID event) ->
  (Create event st).1 = Some ErrDuplicatedKey /\
  handle json_Unmarshal data st = (Nak, st).
Proof.
  destruct st as [ev df]. cbn [db_faults events]. intros Hu -> [old Ho].
  unfold handle. rewrite Hu. run. rewrite Ho. split; reflexivity.
Qed.

Lemma consume_shape (fetches : list fetch) (st : Store) :
  exists rs st',
    consume json_Unmarshal fetches st = (rs, length fetches, Running, st').
Proof.
  revert st. induction fetches as [|f rest IH]; intros st; [eexists _, _; reflexivity|].
  cbn [consume]. unfold bind at 1.
  assert (exists rs st1,
            match f with
            | FetchError => ret []
            | FetchTimeout => handle_all json_Unmarshal []
            | Fetched msgs => handle_all json_Unmarshal msgs
            end st = (rs, st1)) as (rs & st1 & ->).
  { destruct f as [| |msgs]; [eexists _, _; reflexivity ..|].
    destruct (handle_all json_Unmarshal msgs st) as [rs st1]. eauto. }
  unfold bind at 1. destruct (IH st1) as (rs' & st2 & ->).
  eexists _, _. reflexivity.
Qed.

(** C6: whatever the fetches return (errors, timeouts, batches), the loop
    of the consumer has made one fetch per outcome and is still running: no
    outcome makes it return. *)
Theorem consume_never_returns (fetches : list fetch) (st : Store) :
  let out := consume json_Unmarshal fetches st in
  out.1.2 = Running /\ out.1.1.2 = length fetches.
Proof.
  destruct (consume_shape fetches st) as (rs & st' & H).
  cbv zeta. rewrite H. split; reflexivity.
Qed.

End Consumer.

Lemma redelivery_is_refused_witness :
  (Create ClickSample.event ClickSample.store).1 = Some ErrDuplicatedKey /\
  handle ClickSample.json_Unmarshal ClickSample.body ClickSample.store =
    (Nak, ClickSample.store).
Proof.
  apply (redelivery_is_refused ClickSample.json_Unmarshal ClickSample.body
           ClickSample.event ClickSample.store).
  - reflexivity.
  - reflexivity.
  - exists ClickSample.event. reflexivity.
Defined.

(** C2 (as stated) fails: the sample event is in the table, and the
    message that carries it again is answered with Nak. *)
Lemma redelivered_event_is_nacked :
  events ClickSample.store !! "abc" = Some ClickSample.event /\
  ClickSample.json_Unmarshal ClickSample.body = Some ClickSample.event /\
  (handle ClickSample.json_Unmarshal ClickSample.body ClickSample.store).1 = Nak /\
  (consume ClickSample.json_Unmarshal [Fetched [ClickSample.body]] ClickSample.store).1.1.1
    = [Nak].
Proof. repeat split; vm_compute; reflexivity. Qed.

End ClickClaims.

(** * Further properties *)

Module TokenMore.
Import Bytes Base64 Token BytesFacts Base64Facts SHA256Facts TokenFacts TokenTheorems
  TokenTamper TokenClaims.
Local Open Scope Z_scope.

(** What the checks after the MAC comparison make of an issued payload. *)
Lemma verify_issued (s : TokenSigner) (now now' : Z) (rnd code clickID : list Z) :
  length rnd = 8%nat -> len clickID < 65536 ->
  let e := uint32 (Unix (now + ttl s)) in
  let payload :=
    if negb (len clickID =? 0) then
      PutUint16 (uint16 (len clickID)) ++ clickID ++ PutUint32 e ++ rnd
    else PutUint32 e ++ rnd in
  verify s now' code payload (take 16 (sign s code payload)) =
  if e <? Unix now' then Err ErrInvalidToken else Ok clickID.
Proof.
  intros Hrnd Hn e. cbv zeta.
  assert (He : 0 <= e < 2 ^ 32) by (apply Z.mod_pos_bound; lia).
  assert (Hl : forall payload, len (take 16 (sign s code payload)) = 16).
  { intros payload. unfold len. rewrite sign_length. reflexivity. }
  unfold verify. rewrite Hl, bool_decide_true by reflexivity.
  change (negb (16 =? 16)) with false. change (negb true) with false. cbv iota.
  destruct (negb (len clickID =? 0)) eqn:Hz.
  - apply negb_true_iff, Z.eqb_neq in Hz.
    assert (Hpos : 0 < len clickID) by (unfold len in *; lia).
    assert (Hu : uint16 (len clickID) = len clickID) by (apply Z.mod_small; lia).
    rewrite Hu. set (n := len clickID) in *.
    assert (Hp : len (PutUint16 n ++ clickID ++ PutUint32 e ++ rnd) = n + 14).
    { unfold len in *. rewrite !length_app, Hrnd. cbn [length PutUint16 PutUint32]. lia. }
    rewrite Hp.
    replace (n + 14 <? 4) with false by (symmetry; apply Z.ltb_ge; lia).
    replace (14 <? n + 14) with true by (symmetry; apply Z.ltb_lt; lia).
    change (slice 0 2 (PutUint16 n ++ clickID ++ PutUint32 e ++ rnd))
      with (PutUint16 n ++ []).
    rewrite Uint16_PutUint16 by lia.
    replace (n + 2 + 12 <=? n + 14) with true by (symmetry; apply Z.leb_le; lia).
    cbv iota beta.
    assert (H2 : slice 2 (2 + n) (PutUint16 n ++ clickID ++ PutUint32 e ++ rnd) = clickID).
    { unfold slice. replace (2 + n - 2) with n by lia.
      change (drop (Z.to_nat 2) (PutUint16 n ++ ?l)) with l.
      unfold n, len. rewrite Nat2Z.id, take_app_length. reflexivity. }
    assert (H3 : drop (Z.to_nat (2 + n))
                   (PutUint16 n ++ clickID ++ PutUint32 e ++ rnd) = PutUint32 e ++ rnd).
    { replace (Z.to_nat (2 + n)) with (2 + length clickID)%nat by (unfold n, len; lia).
      change (drop (2 + length clickID) (PutUint16 n ++ ?l)) with (drop (length clickID) l).
      apply drop_app_length. }
    rewrite H2, H3.
    change (slice 0 4 (PutUint32 e ++ rnd)) with (PutUint32 e ++ []).
    rewrite Uint32_PutUint32 by trivial. reflexivity.
  - apply negb_false_iff, Z.eqb_eq in Hz.
    destruct clickID; [|discriminate].
    assert (Hp : len (PutUint32 e ++ rnd) = 12).
    { unfold len. rewrite length_app, Hrnd. reflexivity. }
    rewrite Hp. change (12 <? 4) with false. change (14 <? 12) with false. cbv iota beta.
    change (slice 0 4 (PutUint32 e ++ rnd)) with (PutUint32 e ++ []).
    rewrite Uint32_PutUint32 by trivial. reflexivity.
Qed.

Lemma validate_issued (s : TokenSigner) (now now' : Z) (rnd code clickID : list Z) :
  secret s <> [] ->
  length rnd = 8%nat -> Forall is_byte rnd ->
  Forall is_byte clickID -> len clickID < 65536 ->
  exists tok,
    IssueWithClickID s now (Some rnd) code clickID = Ok tok /\
    ValidateAndExtractClickID s now' code tok =
      if uint32 (Unix (now + ttl s)) <? Unix now' then Err ErrInvalidToken else Ok clickID.
Proof.
  intros Hs Hlen Hrnd Hcid Hn.
  destruct (IssueWithClickID s now (Some rnd) code clickID) as [tok|e] eqn:Hi.
  2:{ rewrite issue_ok in Hi by trivial. discriminate. }
  exists tok. split; [reflexivity|].
  pose proof Hi as Hi'. rewrite issue_ok in Hi' by trivial. cbv zeta in Hi'.
  match type of Hi' with Ok ?t = _ => assert (tok = t) as -> by congruence end.
  clear Hi Hi'.
  rewrite validate_parts by (trivial; apply encode_no_dot).
  rewrite !decode_encode; [apply verify_issued; trivial | apply sign_bytes |].
  destruct (negb _);
    repeat first [ apply Forall_cons_2; [apply Z.mod_pos_bound; lia|]
                 | apply Forall_app_2; [trivial|] ]; trivial.
Qed.

(** X1: Any click id of fewer than 65536 bytes comes back from a token that is
    validated for the same code up to the second of its expiry; an empty
    click id comes back empty. *)
Theorem click_id_round_trip (s : TokenSigner) (now now' : Z) (rnd code clickID : list Z) :
  secret s <> [] ->
  length rnd = 8%nat -> Forall is_byte rnd ->
  Forall is_byte clickID -> len clickID < 65536 ->
  Unix now' <= uint32 (Unix (now + ttl s)) ->
  exists tok,
    IssueWithClickID s now (Some rnd) code clickID = Ok tok /\
    ValidateAndExtractClickID s now' code tok = Ok clickID.
Proof.
  intros Hs Hlen Hrnd Hcid Hn He.
  destruct (validate_issued s now now' rnd code clickID) as (tok & Hi & Hv); trivial.
  exists tok. split; [exact Hi|]. rewrite Hv.
  destruct (_ <? _) eqn:E; [lia | reflexivity].
Qed.

Lemma click_id_round_trip_witness :
  exists tok,
    IssueWithClickID TokenSample.signer TokenSample.now (Some TokenSample.rnd)
      TokenSample.code (of_string "0b9c6a4e-7d1f-4c58-9f0e-3a5d2c1b8e77") = Ok tok /\
    ValidateAndExtractClickID TokenSample.signer (TokenSample.now + 60 * 1000000000)
      TokenSample.code tok = Ok (of_string "0b9c6a4e-7d1f-4c58-9f0e-3a5d2c1b8e77").
Proof.
  apply (click_id_round_trip TokenSample.signer TokenSample.now
           (TokenSample.now + 60 * 1000000000) TokenSample.rnd TokenSample.code).
  - discriminate.
  - reflexivity.
  - repeat constructor; unfold is_byte; lia.
  - apply of_string_bytes.
  - reflexivity.
  - vm_compute. discriminate.
Defined.

(** X2: Once the clock shows a second after the one written into the token, the
    token is refused, with the same error as a forged one. *)
Theorem issued_token_expires (s : TokenSigner) (now now' : Z) (rnd code clickID : list Z) :
  secret s <> [] ->
  length rnd = 8%nat -> Forall is_byte rnd ->
  Forall is_byte clickID -> len clickID < 65536 ->
  uint32 (Unix (now + ttl s)) < Unix now' ->
  exists tok,
    IssueWithClickID s now (Some rnd) code clickID = Ok tok /\
    Validate s now' code tok = Some ErrInvalidToken.
Proof.
  intros Hs Hlen Hrnd Hcid Hn He.
  destruct (validate_issued s now now' rnd code clickID) as (tok & Hi & Hv); trivial.
  exists tok. split; [exact Hi|]. unfold Validate. rewrite Hv.
  destruct (_ <? _) eqn:E; [reflexivity | lia].
Qed.

Lemma issued_token_expires_witness :
  exists tok,
    IssueWithClickID TokenSample.signer TokenSample.now (Some TokenSample.rnd)
      TokenSample.code (of_string "abc") = Ok tok /\
    Validate TokenSample.signer (TokenSample.now + 61 * 1000000000)
      TokenSample.code tok = Some ErrInvalidToken.
Proof.
  apply (issued_token_expires TokenSample.signer TokenSample.now
           (TokenSample.now + 61 * 1000000000) TokenSample.rnd TokenSample.code).
  - discriminate.
  - reflexivity.
  - repeat constructor; unfold is_byte; lia.
  - apply of_string_bytes.
  - reflexivity.
  - vm_compute. reflexivity.
Defined.

(** X3: The only errors of validation: ErrMissingSecret, exactly when no secret
    is configured, and ErrInvalidToken otherwise, whatever is wrong with
    the token. *)
Theorem validation_errors (s : TokenSigner) (now : Z) (code token : list Z) (e : error) :
  ValidateAndExtractClickID s now code token = Err e ->
  (secret s = [] /\ e = ErrMissingSecret) \/ (secret s <> [] /\ e = ErrInvalidToken).
Proof.
  intros H. destruct (secret s) as [|b bs] eqn:Hs.
  - left. split; [reflexivity|].
    unfold ValidateAndExtractClickID in H. rewrite Hs in H.
    change (len (@nil Z) =? 0) with true in H. cbv iota in H. congruence.
  - right. split; [discriminate|].
    eapply validate_error; [|exact H]. rewrite Hs. discriminate.
Qed.

Lemma validation_errors_witness :
  (secret TokenSample.signer = [] /\ ErrInvalidToken = ErrMissingSecret) \/
  (secret TokenSample.signer <> [] /\ ErrInvalidToken = ErrInvalidToken).
Proof.
  apply (validation_errors TokenSample.signer TokenSample.now TokenSample.code
           (of_string "no dot in here")).
  vm_compute. reflexivity.
Defined.

Lemma SplitN2_Some (token part0 part1 : list Z) :
  SplitN2 token = Some (part0, part1) ->
  token = part0 ++ 46 :: part1 /\ Forall (fun c => c <> 46) part0.
Proof.
  revert part0. induction token as [|c r IH]; intros part0; cbn [SplitN2]; [discriminate|].
  destruct (c =? 46) eqn:E.
  - intros [= <- <-]. apply Z.eqb_eq in E. subst c. split; [reflexivity | constructor].
  - destruct (SplitN2 r) as [[a b]|]; [|discriminate].
    intros [= <- <-]. destruct (IH a eq_refl) as [-> Ha].
    split; [reflexivity|]. constructor; [apply Z.eqb_neq, E | exact Ha].
Qed.

(** X4: A token that validates holds exactly one dot: one without a dot, or
    with a second one, is refused. *)
Theorem valid_token_has_one_dot (s : TokenSigner) (now : Z) (code token : list Z) :
  Validate s now code token = None ->
  count_occ Z.eq_dec token 46 = 1%nat.
Proof.
  unfold Validate.
  destruct (ValidateAndExtractClickID s now code token) as [cid|] eqn:Hv; [|discriminate].
  intros _. destruct (validate_decoded _ _ _ _ _ Hv) as [payload Hd].
  unfold decoded in Hd.
  destruct (SplitN2 token) as [[part0 part1]|] eqn:Hs; [|discriminate].
  destruct (SplitN2_Some _ _ _ Hs) as [-> H0].
  destruct (DecodeString part0); [|discriminate].
  destruct (DecodeString part1) eqn:H1; [|discriminate].
  rewrite count_occ_app. cbn [count_occ].
  destruct (Z.eq_dec 46 46); [|congruence].
  assert (count_occ Z.eq_dec part0 46 = 0%nat) as ->.
  { apply count_occ_not_In. rewrite Forall_forall in H0.
    intros Hin. apply list_elem_of_In, H0 in Hin. congruence. }
  assert (count_occ Z.eq_dec part1 46 = 0%nat) as ->.
  { apply count_occ_not_In. intros Hin.
    unfold DecodeString in H1. rewrite decode_dot in H1 by trivial. discriminate. }
  reflexivity.
Qed.

Lemma valid_token_has_one_dot_witness :
  count_occ Z.eq_dec TokenSample.token 46 = 1%nat.
Proof.
  apply (valid_token_has_one_dot TokenSample.signer TokenSample.now TokenSample.code).
  vm_compute. reflexivity.
Defined.

Lemma encode_url_safe (bs : list Z) :
  Forall (fun c => TokenWords.url_safe c = true) (EncodeToString bs).
Proof.
  assert (H : forall x, TokenWords.url_safe (enc (Z.land x 63)) = true).
  { intros x. apply (forall_below (fun v => TokenWords.url_safe (enc v)) 64 eq_refl).
    apply sextet_range. }
  induction bs as [|b0|b0 b1|b0 b1 b2 bs IH] using list_ind3;
    cbn [EncodeToString]; repeat constructor; trivial.
Qed.

Lemma issued_token_shape (s : TokenSigner) (now : Z) (rnd : option (list Z))
    (code clickID tok : list Z) :
  IssueWithClickID s now rnd code clickID = Ok tok ->
  exists part0 part1,
    tok = part0 ++ of_string "." ++ part1 /\
    Forall (fun c => TokenWords.url_safe c = true) part0 /\
    Forall (fun c => TokenWords.url_safe c = true) part1 /\
    length part1 = 22%nat.
Proof.
  intros Hi. pose proof (issue_secret _ _ _ _ _ _ Hi) as Hs.
  destruct rnd as [r|].
  2:{ unfold IssueWithClickID in Hi. destruct (len (secret s) =? 0); discriminate. }
  rewrite issue_ok in Hi by trivial. cbv zeta in Hi.
  match type of Hi with Ok ?t = _ => assert (tok = t) as -> by congruence end.
  eexists _, _. split; [reflexivity|].
  split; [apply encode_url_safe|]. split; [apply encode_url_safe|].
  pose proof (sign_length s code
    (if negb (len clickID =? 0)
     then PutUint16 (uint16 (len clickID)) ++ clickID ++
          PutUint32 (uint32 (Unix (now + ttl s))) ++ r
     else PutUint32 (uint32 (Unix (now + ttl s))) ++ r)) as Hl.
  destruct (take 16 _) as [|x0 l]; [discriminate|].
  do 15 (destruct l as [|? l]; [discriminate|]).
  destruct l; [reflexivity | discriminate].
Qed.

(** X5: An issued token can stand in the path of the continue URL as it is: it
    is two runs of URL-safe characters with one dot between them. *)
Theorem issued_token_is_url_safe (s : TokenSigner) (now : Z) (rnd : option (list Z))
    (code clickID tok : list Z) :
  IssueWithClickID s now rnd code clickID = Ok tok ->
  exists part0 part1,
    tok = part0 ++ of_string "." ++ part1 /\
    Forall (fun c => TokenWords.url_safe c = true) part0 /\
    Forall (fun c => TokenWords.url_safe c = true) part1 /\
    length part1 = 22%nat.
Proof. apply issued_token_shape. Qed.

Lemma issued_token_is_url_safe_witness :
  exists part0 part1,
    TokenSample.click_token = part0 ++ of_string "." ++ part1 /\
    Forall (fun c => TokenWords.url_safe c = true) part0 /\
    Forall (fun c => TokenWords.url_safe c = true) part1 /\
    length part1 = 22%nat.
Proof.
  apply (issued_token_is_url_safe TokenSample.signer TokenSample.now
           (Some TokenSample.rnd) TokenSample.code (of_string "abc")).
  vm_compute. reflexivity.
Defined.

End TokenMore.

Module RepoMore.
Import StateM Repo RepoAux RepoFacts RepoClaims.
Local Open Scope string_scope.
Local Open Scope Z_scope.

Lemma Create_up (r : linkRepository) (link : Link) (w : World) :
  redis_nil r = false -> redis_faults w = [] -> db_faults w = [] ->
  links w !! Code link = None ->
  Create r link w =
  (stamped link (clock w), None,
   if bloomSupported r then
     set_bloom (fun b => Some ({[Code link]} ∪ default ∅ b))
       (set_links (insert (Code link) (stamped link (clock w)))
          (set_trace (fun tr => BfAdd bloomKey (Code link) :: DbInsert (Code link) :: tr) w))
   else
     set_links (insert (Code link) (stamped link (clock w)))
       (set_trace (cons (DbInsert (Code link))) w)).
Proof.
  destruct r as [rnil sup], w as [ls k b t rf df tr].
  cbn [redis_nil redis_faults db_faults links clock bloomSupported]. intros -> -> -> Hl.
  unfold stamped. run. rewrite Hl. destruct sup; reflexivity.
Qed.

Section Repository.
Context (json_Marshal : Link -> option string).
Context (json_Unmarshal : string -> option Link).


(** X7: A lookup of a code that has no row yet leaves the sentinel behind, and
    Create does not remove it: for [cacheNullTTL] after the lookup, GetByCode
    answers ErrLinkNotFound for the link that has been created since. *)
Theorem miss_then_create_is_hidden (r : linkRepository) (link : Link) (w : World) (d : Z) :
  redis_nil r = false -> redis_faults w = [] -> db_faults w = [] ->
  links w !! Code link = None ->
  (bloomExists r (Code link) w).1 = true ->
  cached w (Code link) = None ->
  0 <= d < cacheNullTTL ->
  let first := GetByCode json_Marshal json_Unmarshal r (Code link) w in
  let created := Create r link first.2 in
  let second := GetByCode json_Marshal json_Unmarshal r (Code link) (advance d created.2) in
  first.1 = Err ErrLinkNotFound /\
  created.1.2 = None /\
  links created.2 !! Code link = Some created.1.1 /\
  second.1 = Err ErrLinkNotFound.
Proof.
  intros Hn Hr Hdb Hl Hf Hc Hd first created second.
  destruct (GetByCode_absent_state json_Marshal json_Unmarshal r (Code link) w)
    as (H1 & (Hls & Hb & Ht & Hrf & Hdf) & _ & Hmiss); trivial.
  { intros v Hv. congruence. }
  fold first in H1, Hls, Hb, Ht, Hrf, Hdf, Hmiss.
  destruct Hmiss as (Hk & _); [congruence|].
  assert (Hl1 : links first.2 !! Code link = None) by (rewrite Hls; exact Hl).
  split; [exact H1|].
  subst second created. rewrite Create_up by trivial. cbn [fst snd].
  set (w2 := if bloomSupported r then _ else _).
  assert (Hw2 : links w2 !! Code link = Some (stamped link (clock first.2)) /\
                kv w2 = kv first.2 /\ clock w2 = clock first.2 /\
                redis_faults w2 = [] /\
                (bloomSupported r = true -> bloom w2 = Some ({[Code link]} ∪ default ∅ (bloom first.2)))).
  { unfold w2. destruct (bloomSupported r);
      cbn [links kv clock redis_faults bloom set_bloom set_links set_trace];
      rewrite lookup_insert_eq; repeat split; trivial; discriminate. }
  destruct Hw2 as (Hw2l & Hw2k & Hw2t & Hw2r & Hw2b).
  split; [reflexivity|]. split; [exact Hw2l|].
  rewrite GetByCode_up; trivial.
  - cbv zeta.
    assert (cached (advance d w2) (Code link) = Some cacheNullValue) as ->.
    { unfold cached, advance. cbn [kv clock set_clock].
      rewrite Hw2k, Hk, lookup_insert_eq, Hw2t, Ht.
      replace (_ <? _) with true by (symmetry; apply Z.ltb_lt; lia). reflexivity. }
    reflexivity.
  - rewrite bloomExists_up by exact Hw2r. cbn [fst]. rewrite Hn.
    destruct (bloomSupported r) eqn:Hs; [|reflexivity].
    cbn [negb orb]. unfold advance. cbn [bloom set_clock]. rewrite Hw2b by reflexivity.
    apply bool_decide_eq_true_2. cbn [default]. set_solver.
Qed.

Lemma Create_taken (r : linkRepository) (link old : Link) (w : World) :
  db_faults w = [] ->
  links w !! Code link = Some old ->
  let created := Create r link w in
  created.1.2 = Some ErrDuplicatedKey /\
  links created.2 = links w /\
  bloom created.2 = bloom w /\
  trace created.2 = DbInsert (Code link) :: trace w.
Proof.
  destruct r as [rnil sup], w as [ls k b t rf df tr].
  cbn [db_faults links]. intros -> Hl. run. rewrite Hl. repeat split.
Qed.

(** X8: Create of a code that is taken: the error of the insert comes back, the
    table is as before, and Redis is not called. *)
Theorem create_duplicate (r : linkRepository) (link old : Link) (w : World) :
  db_faults w = [] ->
  links w !! Code link = Some old ->
  let created := Create r link w in
  created.1.2 = Some ErrDuplicatedKey /\
  links created.2 = links w /\
  bloom created.2 = bloom w /\
  trace created.2 = DbInsert (Code link) :: trace w.
Proof. apply Create_taken. Qed.

(** X9: A cached value that decodes is the answer: the links table is not read,
    whatever it holds and whether or not the database answers. *)
Theorem cached_hit_skips_store (r : linkRepository) (code v : string) (l : Link) (w : World) :
  redis_nil r = false -> redis_faults w = [] ->
  (bloomExists r code w).1 = true ->
  cached w code = Some v -> v <> cacheNullValue -> json_Unmarshal v = Some l ->
  let out := GetByCode json_Marshal json_Unmarshal r code w in
  out.1 = Ok l /\
  count is_db_read out.2 = count is_db_read w /\
  count is_cache_write out.2 = count is_cache_write w /\
  links out.2 = links w /\ kv out.2 = kv w /\ db_faults out.2 = db_faults w.
Proof.
  intros Hn Hr Hf Hc Hv Hu out. subst out.
  rewrite GetByCode_up by trivial. cbv zeta. rewrite Hc, Hu.
  apply String.eqb_neq in Hv. rewrite Hv.
  destruct r as [rnil sup], w as [ls k b t rf df tr]. unfold asked.
  destruct sup, rnil; cbn [negb orb bloomSupported redis_nil fst snd set_trace
                           links kv db_faults];
    rewrite ?count_cons; repeat split.
Qed.

Lemma GetByCode_bare (r : linkRepository) (code : string) (w : World) :
  redis_nil r = true ->
  let out := GetByCode json_Marshal json_Unmarshal r code w in
  out.1 = match (db_First code w).1 with
          | Err ErrRecordNotFound => Err ErrLinkNotFound
          | answer => answer
          end /\
  trace out.2 = DbSelect code :: trace w /\
  kv out.2 = kv w /\ bloom out.2 = bloom w /\ redis_faults out.2 = redis_faults w.
Proof.
  destruct r as [rnil sup], w as [ls k b t rf df tr].
  cbn [redis_nil]. intros ->.
  destruct sup; destruct df as [|[] df]; run;
    try (destruct (ls !! code)); repeat split.
Qed.

(** X10: Without a Redis client GetByCode is the read of the table: no Redis
    command is sent, a missing row is ErrLinkNotFound, and any other error
    of the database comes back as it is. *)
Theorem get_without_redis (r : linkRepository) (code : string) (w : World) :
  redis_nil r = true ->
  let out := GetByCode json_Marshal json_Unmarshal r code w in
  out.1 = match (db_First code w).1 with
          | Err ErrRecordNotFound => Err ErrLinkNotFound
          | answer => answer
          end /\
  trace out.2 = DbSelect code :: trace w /\
  kv out.2 = kv w /\ bloom out.2 = bloom w /\ redis_faults out.2 = redis_faults w.
Proof. apply GetByCode_bare. Qed.

(** X11: With every Redis command failing, GetByCode still answers from the
    table, and caches nothing. *)
Theorem get_with_redis_down (r : linkRepository) (code : string) (w : World)
    (fs : list bool) :
  redis_nil r = false ->
  redis_faults w = true :: true :: true :: fs ->
  db_faults w = [] ->
  let out := GetByCode json_Marshal json_Unmarshal r code w in
  out.1 = match links w !! code with
          | Some l => Ok l
          | None => Err ErrLinkNotFound
          end /\
  kv out.2 = kv w /\ links out.2 = links w /\
  count is_db_read out.2 = S (count is_db_read w).
Proof.
  destruct r as [rnil sup], w as [ls k b t rf df tr].
  cbn [redis_nil redis_faults db_faults links]. intros -> -> ->.
  destruct sup; run;
    (destruct (ls !! code) as [l|]; [destruct (json_Marshal l)|]);
    rewrite ?count_cons; repeat split.
Qed.

(** X12: Update of a code without a row: ErrLinkNotFound, and neither the table
    nor the cache is touched. *)
Theorem update_missing (r : linkRepository) (link : Link) (w : World) :
  db_faults w = [] ->
  links w !! Code link = None ->
  let upd := Update r link w in
  upd.1 = (link, Some ErrLinkNotFound) /\
  links upd.2 = links w /\ kv upd.2 = kv w /\
  trace upd.2 = DbUpdate (Code link) :: trace w.
Proof.
  destruct r as [rnil sup], w as [ls k b t rf df tr].
  cbn [db_faults links]. intros -> Hl. run. rewrite Hl. repeat split.
Qed.

(** X13: When the DEL of Update is lost, Update still reports success, the row
    has the new URL, and GetByCode goes on returning the cached link until
    the entry expires. *)
Theorem lost_invalidation_serves_stale (r : linkRepository) (link old stale : Link)
    (v : string) (exp : Z) (w : World) (d : Z) :
  redis_nil r = false -> redis_faults w = [true] -> db_faults w = [] ->
  links w !! Code link = Some old -> Code old = Code link ->
  (bloomExists r (Code link) (set_redis_faults (fun _ => []) w)).1 = true ->
  kv w !! (cacheKeyPrefix +:+ Code link) = Some (v, exp) ->
  v <> cacheNullValue -> json_Unmarshal v = Some stale ->
  clock w + d < exp ->
  let upd := Update r link w in
  let next := GetByCode json_Marshal json_Unmarshal r (Code link) (advance d upd.2) in
  upd.1.2 = None /\
  URL <$> links upd.2 !! Code link = Some (URL link) /\
  next.1 = Ok stale.
Proof.
  intros Hn Hr Hdb Hl Hcode Hf Hk Hv Hu Hd upd next. subst next upd.
  destruct r as [rnil sup], w as [ls k b t rf df tr].
  cbn [redis_nil redis_faults db_faults links kv clock] in *. subst rnil rf df.
  assert (HU : Update {| redis_nil := false; bloomSupported := sup |} link
                 (mkWorld ls k b t [true] [] tr) =
               (updated old link t, None,
                mkWorld (<[Code link := updated old link t]> ls) k b t [] []
                  (RedisDel (cacheKeyPrefix +:+ Code old) :: DbSelect (Code link)
                   :: DbUpdate (Code link) :: tr))).
  { unfold updated. run. rewrite Hl. cbn [Z.eqb]. cbv beta iota.
    rewrite lookup_insert_eq. reflexivity. }
  rewrite HU. cbn [fst snd links].
  split; [reflexivity|]. split; [now rewrite lookup_insert_eq|].
  rewrite GetByCode_up; [|reflexivity|reflexivity|].
  - cbv zeta. unfold cached, advance. cbn [kv clock set_clock]. rewrite Hk.
    replace (_ <? _) with true by (symmetry; apply Z.ltb_lt; lia).
    apply String.eqb_neq in Hv. rewrite Hv, Hu. reflexivity.
  - rewrite <- Hf. apply bloomExists_frame; reflexivity.
Qed.

End Repository.

(** X14: When the EXISTS probe of the constructor fails while the filter exists,
    BF.RESERVE is tried and refused, and the repository runs without the
    filter: its Create sends no BF.ADD, so the code it creates is missing
    from the filter that another repository finds. *)
Theorem failed_probe_disables_filter (link : Link) (w : World) (b : gset string) :
  redis_faults w = [true] -> db_faults w = [] ->
  bloom w = Some b -> Code link ∉ b ->
  links w !! Code link = None ->
  let made := NewLinkRepository false w in
  let created := Create made.1 link made.2 in
  let other := NewLinkRepository false created.2 in
  bloomSupported made.1 = false /\
  created.1.2 = None /\
  bloom created.2 = Some b /\
  bloomSupported other.1 = true /\
  (bloomExists other.1 (Code link) other.2).1 = false.
Proof.
  destruct w as [ls k b0 t rf df tr].
  intros Hr Hd Hbl Hb Hl made created other.
  cbn [redis_faults db_faults bloom links] in Hr, Hd, Hbl, Hl. subst rf df b0.
  assert (H1 : made = (mkRepo false false,
                       mkWorld ls k (Some b) t [] []
                         (BfReserve bloomKey :: RedisExists bloomKey :: tr)))
    by reflexivity.
  assert (H2 : created = (stamped link t, None,
                          mkWorld (<[Code link := stamped link t]> ls) k (Some b) t [] []
                            (DbInsert (Code link) :: BfReserve bloomKey
                             :: RedisExists bloomKey :: tr))).
  { subst created. rewrite H1. unfold stamped. run. rewrite Hl. reflexivity. }
  assert (H3 : other = (mkRepo false true,
                        mkWorld (<[Code link := stamped link t]> ls) k (Some b) t [] []
                          (RedisExists bloomKey :: DbInsert (Code link)
                           :: BfReserve bloomKey :: RedisExists bloomKey :: tr))).
  { subst other. rewrite H2. cbn [snd]. unfold NewLinkRepository, initBloomFilter.
    cbn [redis_nil]. unfold bind at 1.
    assert (He : redis_Exists bloomKey
                   (mkWorld (<[Code link := stamped link t]> ls) k (Some b) t [] []
                      (DbInsert (Code link) :: BfReserve bloomKey
                       :: RedisExists bloomKey :: tr)) =
                 (1, false,
                  mkWorld (<[Code link := stamped link t]> ls) k (Some b) t [] []
                    (RedisExists bloomKey :: DbInsert (Code link)
                     :: BfReserve bloomKey :: RedisExists bloomKey :: tr))).
    { unfold redis_Exists, log, redis_up, bind, ret, get, modify, set_trace.
      cbn [redis_faults links kv bloom clock db_faults trace].
      rewrite (bool_decide_eq_true_2 (bloomKey = bloomKey)) by reflexivity.
      rewrite (bool_decide_eq_true_2 (is_Some (Some b))) by eauto.
      rewrite orb_true_r. reflexivity. }
    rewrite He. reflexivity. }
  rewrite H1, H2, H3. cbn [fst snd bloomSupported bloom].
  repeat split.
  rewrite bloomExists_up by reflexivity. cbn [fst bloomSupported redis_nil negb orb bloom default].
  apply bool_decide_eq_false_2. exact Hb.
Qed.

End RepoMore.

Module ClickMore.
Import StateM Clicks ClickFacts ClickClaims.
Local Open Scope string_scope.
Local Open Scope Z_scope.

Lemma sweep_events (c : ClickTimeoutChecker) (now : Z) (st : Store) :
  events (checkExpiredPendingEvents c now st).2 = events st \/
  events (checkExpiredPendingEvents c now st).2 =
    (fun e => if expired_pending (now - ttl c) e
              then with_status ClickStatusFailed e else e) <$> events st.
Proof.
  destruct st as [ev [|[] df]]; [right | left | right]; reflexivity.
Qed.

Lemma sweep_spares
    (c : ClickTimeoutChecker) (now : Z) (id : string) (e : ClickEvent) (st : Store) :
  events st !! id = Some e ->
  Status e <> ClickStatusPending \/ now - ttl c <= Timestamp e ->
  events (checkExpiredPendingEvents c now st).2 !! id = Some e.
Proof.
  intros He Hkeep. destruct (sweep_events c now st) as [-> | ->]; [exact He|].
  rewrite lookup_fmap, He. cbn [fmap option_fmap option_map].
  unfold expired_pending. destruct Hkeep as [Hs | Ht].
  - apply String.eqb_neq in Hs. rewrite Hs. reflexivity.
  - replace (Timestamp e <? now - ttl c) with false by (symmetry; apply Z.ltb_ge; lia).
    rewrite andb_false_r. reflexivity.
Qed.

(** X15: A sweep leaves alone every event that is not pending and every event
    that is not older than the TTL, whether or not the database answers. *)
Theorem sweep_spares_terminal_and_fresh
    (c : ClickTimeoutChecker) (now : Z) (id : string) (e : ClickEvent) (st : Store) :
  events st !! id = Some e ->
  Status e <> ClickStatusPending \/ now - ttl c <= Timestamp e ->
  events (checkExpiredPendingEvents c now st).2 !! id = Some e.
Proof. apply sweep_spares. Qed.

(** X16: A sweep changes nothing but the status: the ids in the table are the
    same, and each event keeps its link code, address, agent and time. *)
Theorem sweep_keeps_identity
    (c : ClickTimeoutChecker) (now : Z) (id : string) (st : Store) :
  with_status "" <$> events (checkExpiredPendingEvents c now st).2 !! id =
  with_status "" <$> events st !! id.
Proof.
  destruct (sweep_events c now st) as [-> | ->]; [reflexivity|].
  rewrite lookup_fmap. destruct (events st !! id) as [e|]; [|reflexivity].
  cbn [fmap option_fmap option_map]. destruct (expired_pending _ e); reflexivity.
Qed.

Lemma bulk_update_up (cutoff : Z) (st : Store) :
  db_faults st = [] ->
  UpdateExpiredPendingStatus cutoff st =
  (Z.of_nat (size (filter (fun kv : string * ClickEvent =>
                             expired_pending cutoff kv.2 = true) (events st))), None,
   mkStore ((fun e => if expired_pending cutoff e
                      then with_status ClickStatusFailed e else e) <$> events st) []).
Proof. destruct st as [ev df]. cbn [db_faults]. intros ->. reflexivity. Qed.

(** X17: The second of two sweeps with the same cut-off finds nothing to do: no
    event fails twice. *)
Theorem second_sweep_finds_nothing (cutoff : Z) (st : Store) :
  db_faults st = [] ->
  let first := UpdateExpiredPendingStatus cutoff st in
  UpdateExpiredPendingStatus cutoff first.2 = (0, None, first.2).
Proof.
  intros Hdb. cbv zeta. rewrite (bulk_update_up cutoff st) by trivial. cbn [snd].
  rewrite bulk_update_up by reflexivity. cbn [events].
  set (f := fun e => if expired_pending cutoff e then with_status ClickStatusFailed e else e).
  assert (Hf : forall e, expired_pending cutoff (f e) = false).
  { intros e. unfold f. destruct (expired_pending cutoff e) eqn:E; [reflexivity | exact E]. }
  assert (Hempty : filter (fun kv : string * ClickEvent => expired_pending cutoff kv.2 = true)
                     (f <$> events st) = ∅).
  { apply map_empty_filter. intros i x Hx.
    rewrite lookup_fmap in Hx. destruct (events st !! i) as [e|]; [|discriminate].
    injection Hx as <-. cbn [snd]. rewrite Hf. discriminate. }
  rewrite Hempty, map_size_empty.
  f_equal. f_equal. rewrite <- map_fmap_compose.
  apply map_fmap_ext. intros i e _. cbn. unfold f at 1. rewrite Hf. reflexivity.
Qed.

(** X18: A confirmed event stays SUCCESS through every later sweep. *)
Theorem confirmed_event_survives_sweep
    (c : ClickTimeoutChecker) (now : Z) (id : string) (e : ClickEvent) (st : Store) :
  db_faults st = [] -> events st !! id = Some e -> id <> "" ->
  let confirmed := (confirm false id st).2 in
  let swept := (checkExpiredPendingEvents c now confirmed).2 in
  events swept !! id = Some (with_status ClickStatusSuccess e).
Proof.
  intros Hdb He Hid confirmed swept. subst swept confirmed.
  unfold confirm. apply String.eqb_neq in Hid. rewrite Hid. cbn [negb andb].
  unfold bind at 1. rewrite UpdateStatus_up by trivial. cbn [snd ret].
  apply sweep_spares.
  - cbn [events]. rewrite lookup_alter_eq, He. reflexivity.
  - left. discriminate.
Qed.

(** X19: A confirmation that arrives before the consumer has stored the event
    updates no row and reports no error; the event stored afterwards is
    pending, as it was published. *)
Theorem early_confirmation_is_lost (e : ClickEvent) (st : Store) :
  db_faults st = [] -> events st !! ID e = None -> ID e <> "" ->
  let confirmed := confirm false (ID e) st in
  let stored := Create e confirmed.2 in
  (UpdateStatus (ID e) ClickStatusSuccess st).1 = None /\
  events confirmed.2 = events st /\
  stored.1 = None /\
  events stored.2 !! ID e = Some e.
Proof.
  destruct st as [ev df]. intros Hdb He Hid confirmed stored.
  cbn [db_faults events] in Hdb, He. subst df.
  assert (Ha : alter (with_status ClickStatusSuccess) (ID e) ev = ev).
  { apply map_eq. intros i. destruct (decide (i = ID e)) as [->|Hne].
    - rewrite lookup_alter_eq, He. reflexivity.
    - rewrite lookup_alter_ne by congruence. reflexivity. }
  assert (Hc : confirmed = (tt, mkStore ev [])).
  { subst confirmed. unfold confirm. apply String.eqb_neq in Hid. rewrite Hid.
    cbn [negb andb]. unfold bind at 1. rewrite UpdateStatus_up by reflexivity.
    cbn [events]. rewrite Ha. reflexivity. }
  assert (Hs : stored = (None, mkStore (<[ID e := e]> ev) [])).
  { subst stored. rewrite Hc. cbn [snd]. run. rewrite He. reflexivity. }
  rewrite Hc, Hs. cbn [fst snd events].
  repeat split. apply lookup_insert_eq.
Qed.

Section Consumer.
Context (json_Unmarshal : string -> option ClickEvent).

(** X20: The consumer acknowledges a message exactly when it has stored its
    event under a fresh id; after a Nak the table is as it was. *)
Theorem ack_means_stored (data : string) (st : Store) :
  let out := handle json_Unmarshal data st in
  match out.1 with
  | Ack => exists e, json_Unmarshal data = Some e /\ events st !! ID e = None /\
                     events out.2 = <[ID e := e]> (events st)
  | Nak => events out.2 = events st
  end.
Proof.
  destruct st as [ev df]. unfold handle.
  destruct (json_Unmarshal data) as [e|]; [|reflexivity].
  destruct df as [|[] df]; run; cbn [negb];
    try (destruct (ev !! ID e) eqn:E); cbv beta iota;
    first [reflexivity | exists e; repeat split; trivial].
Qed.

Lemma handle_all_cons (m : string) (rest : list string) (st : Store) :
  handle_all json_Unmarshal (m :: rest) st =
  let '(r, st1) := handle json_Unmarshal m st in
  let '(rs, st2) := handle_all json_Unmarshal rest st1 in
  (r :: rs, st2).
Proof. reflexivity. Qed.

Lemma handle_all_app (a b : list string) (st : Store) :
  handle_all json_Unmarshal (a ++ b) st =
  let '(ra, st1) := handle_all json_Unmarshal a st in
  let '(rb, st2) := handle_all json_Unmarshal b st1 in
  ((ra ++ rb)%list, st2).
Proof.
  revert st. induction a as [|m a IH]; intros st.
  - cbn [app handle_all ret]. destruct (handle_all _ b st); reflexivity.
  - cbn [app]. rewrite !handle_all_cons.
    destruct (handle json_Unmarshal m st) as [r st1]. rewrite IH.
    destruct (handle_all json_Unmarshal a st1) as [ra st2].
    destruct (handle_all json_Unmarshal b st2); reflexivity.
Qed.

Lemma consume_messages (fetches : list fetch) (st : Store) :
  consume json_Unmarshal fetches st =
  ((handle_all json_Unmarshal (ClickWords.messages fetches) st).1, length fetches, Running,
   (handle_all json_Unmarshal (ClickWords.messages fetches) st).2).
Proof.
  revert st. induction fetches as [|f rest IH]; intros st; [reflexivity|].
  cbn [consume]. unfold ClickWords.messages. cbn [map concat].
  fold (ClickWords.messages rest).
  assert (Hf : match f with
               | FetchError => ret []
               | FetchTimeout => handle_all json_Unmarshal []
               | Fetched msgs => handle_all json_Unmarshal msgs
               end st =
               handle_all json_Unmarshal
                 (match f with Fetched msgs => msgs | _ => [] end) st).
  { destruct f; reflexivity. }
  unfold bind at 1. rewrite Hf, handle_all_app.
  destruct (handle_all json_Unmarshal _ st) as [rs st1].
  unfold bind at 1. rewrite IH.
  destruct (handle_all json_Unmarshal (ClickWords.messages rest) st1) as [rs' st2].
  reflexivity.
Qed.

(** X21: Every message fetched is answered once, in the order of delivery:
    the replies and the table are those of handling the messages of all
    batches one after the other, and fetches that fail or time out change
    nothing. *)
Theorem one_reply_per_message (fetches : list fetch) (st : Store) :
  let out := consume json_Unmarshal fetches st in
  let all := handle_all json_Unmarshal (ClickWords.messages fetches) st in
  out.1.1.1 = all.1 /\ out.2 = all.2 /\
  length out.1.1.1 = length (ClickWords.messages fetches).
Proof.
  cbv zeta. rewrite consume_messages. cbn [fst snd].
  split; [reflexivity|]. split; [reflexivity|].
  generalize (ClickWords.messages fetches). intros msgs. revert st.
  induction msgs as [|m msgs IH]; intros st; [reflexivity|].
  rewrite handle_all_cons.
  destruct (handle json_Unmarshal m st) as [r st1]. specialize (IH st1).
  destruct (handle_all json_Unmarshal msgs st1) as [rs st2].
  cbn [fst length] in *. congruence.
Qed.

End Consumer.

(** X22: The checker returns at the stop signal: what follows it is never
    handled, and the table is the one the ticks before it left. *)
Theorem run_returns_at_stop (c : ClickTimeoutChecker) (ticks : list Z)
    (later : list select_event) (st : Store) :
  run c (map Tick ticks ++ Stop :: later) st =
  (Returned, (run c (map Tick ticks) st).2) /\
  (run c (map Tick ticks) st).1 = Running.
Proof.
  revert st. induction ticks as [|t ticks IH]; intros st; [split; reflexivity|].
  cbn [map app run]. unfold bind.
  destruct (checkExpiredPendingEvents c t st) as [[] st1]. apply IH.
Qed.

End ClickMore.

Module RedirectFacts.
Import StateM Bytes.
Local Open Scope string_scope.
Local Open Scope Z_scope.

Lemma to_string_of_string (s : string) : Redirect.to_string (of_string s) = s.
Proof.
  unfold Redirect.to_string, of_string. rewrite map_map.
  rewrite <- (string_of_list_ascii_of_string s) at 2. f_equal.
  rewrite <- (map_id (list_ascii_of_string s)) at 2.
  apply map_ext. intros a. rewrite N2Z.id. apply ascii_N_embedding.
Qed.

Lemma of_string_to_string (b : list Z) :
  Forall is_byte b -> of_string (Redirect.to_string b) = b.
Proof.
  intros Hb. unfold Redirect.to_string, of_string.
  rewrite list_ascii_of_string_of_list_ascii, map_map.
  rewrite <- (map_id b) at 2. apply map_ext_in. intros z Hz.
  rewrite Forall_forall in Hb. apply list_elem_of_In, Hb in Hz. unfold is_byte in Hz.
  rewrite N_ascii_embedding by lia. lia.
Qed.

End RedirectFacts.

Module ServiceMore.
Import StateM Repo RepoAux RepoFacts RepoClaims RepoMore.
Local Open Scope string_scope.
Local Open Scope Z_scope.

Lemma Create_stores (r : linkRepository) (link : Link) (w : World) :
  (Create r link w).1.2 = None ->
  links (Create r link w).2 !! Code link = Some (Create r link w).1.1 /\
  URL (Create r link w).1.1 = URL link /\
  Mode (Create r link w).1.1 = Mode link /\
  TimerSeconds (Create r link w).1.1 = TimerSeconds link /\
  Code (Create r link w).1.1 = Code link.
Proof.
  destruct r as [rnil sup], w as [ls k b t rf df tr].
  destruct df as [|[] df]; run; try discriminate;
    (destruct (ls !! Code link) eqn:E; [discriminate|]);
    destruct sup, rnil; cbv beta iota; try destruct rf as [|[] rf];
    cbv beta iota; intros _; rewrite lookup_insert_eq; repeat split.
Qed.

Section Service.
Context (json_Marshal : Link -> option string).
Context (json_Unmarshal : string -> option Link).

(** X23: A link the API reports as created (201) is in the table under its
    code, with a URL, a mode that is direct, click or timer, and a timer
    of 0 to 300 seconds. *)
Theorem created_link_is_valid (repo : linkRepository)
    (body : option API.CreateLinkRequest.t) (w : World) (resp : API.CreateLinkResponse.t) :
  (API.CreateLink repo body w).1 = API.Body API.StatusCreated resp ->
  API.CreateLinkResponse.URL resp <> "" /\
  (API.CreateLinkResponse.Mode resp = "direct" \/
   API.CreateLinkResponse.Mode resp = "click" \/
   API.CreateLinkResponse.Mode resp = "timer") /\
  0 <= API.CreateLinkResponse.TimerSeconds resp <= 300 /\
  exists row,
    links (API.CreateLink repo body w).2 !! API.CreateLinkResponse.Code resp = Some row /\
    API.render row = resp.
Proof.
  destruct body as [req|]; [|discriminate].
  set (link := mkLink (API.CreateLinkRequest.Code req) (API.CreateLinkRequest.URL req)
                 (if String.eqb (API.CreateLinkRequest.Mode req) "" then "direct"
                  else API.CreateLinkRequest.Mode req)
                 (API.CreateLinkRequest.TimerSeconds req) (API.CreateLinkRequest.Disabled req)
                 (API.CreateLinkRequest.ExpiresAt req) 0 0).
  destruct (String.eqb (API.CreateLinkRequest.URL req) "") eqn:Hu;
    [unfold API.CreateLink; rewrite Hu; discriminate|].
  destruct (negb (API.mode_ok (API.CreateLinkRequest.Mode req))) eqn:Hm;
    [unfold API.CreateLink; rewrite Hu, Hm; discriminate|].
  destruct ((API.CreateLinkRequest.TimerSeconds req <? 0)
            || (300 <? API.CreateLinkRequest.TimerSeconds req)) eqn:Ht;
    [unfold API.CreateLink; rewrite Hu, Hm, Ht; discriminate|].
  assert (Heq : API.CreateLink repo (Some req) w =
                match Create repo link w with
                | (row, Some _, w1) =>
                    (API.Error API.StatusInternalServerError "failed to create link", w1)
                | (row, None, w1) => (API.Body API.StatusCreated (API.render row), w1)
                end).
  { unfold API.CreateLink. rewrite Hu, Hm, Ht. cbv zeta.
    unfold bind, Service.CreateLink, bind.
    cbn [Service.CreateLinkInput.Code Service.CreateLinkInput.URL Service.CreateLinkInput.Mode
         Service.CreateLinkInput.TimerSeconds Service.CreateLinkInput.Disabled
         Service.CreateLinkInput.ExpiresAt].
    fold link. destruct (Create repo link w) as [[row [err|]] w1]; reflexivity. }
  rewrite Heq. clear Heq.
  pose proof (Create_stores repo link w) as Hc.
  destruct (Create repo link w) as [[row [err|]] w1]; cbn [fst snd] in *; [discriminate|].
  destruct (Hc eq_refl) as (Hrow & HU & HM & HT & HC).
  intros [= <-]. unfold API.render.
  cbn [API.CreateLinkResponse.URL API.CreateLinkResponse.Mode
       API.CreateLinkResponse.TimerSeconds API.CreateLinkResponse.Code].
  apply String.eqb_neq in Hu. apply orb_false_iff in Ht as [Ht1 Ht2].
  apply Z.ltb_ge in Ht1, Ht2. apply negb_false_iff in Hm.
  split; [rewrite HU; exact Hu|].
  split.
  { rewrite HM. unfold link. cbn [Mode]. unfold API.mode_ok in Hm.
    destruct (String.eqb (API.CreateLinkRequest.Mode req) "") eqn:E0; [now left|].
    cbn [orb] in Hm.
    destruct (String.eqb (API.CreateLinkRequest.Mode req) "direct") eqn:E1.
    { apply String.eqb_eq in E1. now left. }
    destruct (String.eqb (API.CreateLinkRequest.Mode req) "click") eqn:E2.
    { apply String.eqb_eq in E2. right. now left. }
    cbn [orb] in Hm. apply String.eqb_eq in Hm. right. now right. }
  split; [rewrite HT; unfold link; cbn [TimerSeconds]; lia|].
  exists row. split; [|reflexivity]. rewrite HC. exact Hrow.
Qed.

Lemma asked_frame (r : linkRepository) (code : string) (w : World) :
  links (asked r code w) = links w /\ kv (asked r code w) = kv w /\
  clock (asked r code w) = clock w /\ redis_faults (asked r code w) = redis_faults w /\
  db_faults (asked r code w) = db_faults w /\ bloom (asked r code w) = bloom w.
Proof. unfold asked. destruct (_ || _); repeat split. Qed.

(** What UpdateLink does with the link that GetByCode handed it. *)
Lemma UpdateLink_from (repo : linkRepository) (code : string)
    (input : Service.UpdateLinkInput.t) (got old : Link) (w w1 : World) :
  GetByCode json_Marshal json_Unmarshal repo code w = (Ok got, w1) ->
  Code got = code ->
  redis_nil repo = false -> redis_faults w1 = [] -> db_faults w1 = [] ->
  links w1 !! code = Some old ->
  let out := Service.UpdateLink json_Marshal json_Unmarshal repo code input w in
  out.1 = Service.Ok (updated old (Service.merge input got) (clock w1)) /\
  links out.2 !! code = Some (updated old (Service.merge input got) (clock w1)).
Proof.
  intros Hg Hc Hn Hr Hd Hl. cbv zeta. unfold Service.UpdateLink, bind at 1 3.
  rewrite Hg.
  assert (Hcode : Code (Service.merge input got) = code) by exact Hc.
  unfold bind. rewrite (Update_up repo (Service.merge input got) old w1); trivial.
  2:{ rewrite Hcode. exact Hl. }
  cbn [fst snd ret links set_kv set_links]. rewrite Hcode.
  split; [reflexivity | apply lookup_insert_eq].
Qed.

(** X24: With nothing cached, UpdateLink changes the columns its input names
    and no other: the code and the creation time stay, and an expiry can be
    replaced but not removed. *)
Theorem update_link_changes_named_columns (repo : linkRepository) (code : string)
    (input : Service.UpdateLinkInput.t) (old : Link) (w : World) :
  redis_nil repo = false -> redis_faults w = [] -> db_faults w = [] ->
  links w !! code = Some old -> Code old = code ->
  (bloomExists repo code w).1 = true ->
  cached w code = None ->
  let out := Service.UpdateLink json_Marshal json_Unmarshal repo code input w in
  let row := mkLink code
               (default (URL old) (Service.UpdateLinkInput.URL input))
               (default (Mode old) (Service.UpdateLinkInput.Mode input))
               (default (TimerSeconds old) (Service.UpdateLinkInput.TimerSeconds input))
               (default (Disabled old) (Service.UpdateLinkInput.Disabled input))
               (match Service.UpdateLinkInput.ExpiresAt input with
                | Some t => Some t
                | None => ExpiresAt old
                end)
               (CreatedAt old) (clock w) in
  out.1 = Service.Ok row /\ links out.2 !! code = Some row.
Proof.
  intros Hn Hr Hd Hl Hc Hf Hk.
  destruct (asked_frame repo code w) as (Al & Ak & At & Ar & Ad & Ab).
  assert (Hg : GetByCode json_Marshal json_Unmarshal repo code w =
               (Ok old, loaded json_Marshal code old
                          (set_trace (cons (RedisGet (cacheKeyPrefix +:+ code)))
                             (asked repo code w)))).
  { rewrite GetByCode_up by trivial. cbv zeta. rewrite Hk.
    rewrite loadFromStore_up; trivial.
    - cbn [links set_trace]. rewrite Al, Hl. reflexivity.
    - cbn [redis_faults set_trace]. congruence.
    - cbn [db_faults set_trace]. congruence. }
  set (w1 := loaded _ _ _ _) in Hg.
  assert (Hw1 : links w1 !! code = Some old /\ redis_faults w1 = [] /\
                db_faults w1 = [] /\ clock w1 = clock w).
  { unfold w1, loaded. destruct (json_Marshal old);
      cbn [links redis_faults db_faults clock set_kv set_trace];
      rewrite Al, Ar, Ad, At; repeat split; trivial. }
  destruct Hw1 as (Hl1 & Hr1 & Hd1 & Ht1).
  pose proof (UpdateLink_from repo code input old old w w1 Hg Hc Hn Hr1 Hd1 Hl1) as H.
  cbv zeta in *. rewrite Ht1 in H. unfold updated, Service.merge in H.
  cbn [Code URL Mode TimerSeconds Disabled ExpiresAt CreatedAt] in H.
  rewrite Hc in H. exact H.
Qed.

(** X25: UpdateLink works on the copy GetByCode returns: when that copy comes
    from the cache, the columns the input does not name are written back
    from the cache, over what the table holds. *)
Theorem update_link_writes_back_cached_columns (repo : linkRepository) (code v : string)
    (input : Service.UpdateLinkInput.t) (old stale : Link) (w : World) :
  redis_nil repo = false -> redis_faults w = [] -> db_faults w = [] ->
  links w !! code = Some old -> Code old = code ->
  (bloomExists repo code w).1 = true ->
  cached w code = Some v -> v <> cacheNullValue ->
  json_Unmarshal v = Some stale -> Code stale = code ->
  Service.UpdateLinkInput.Mode input = None ->
  Service.UpdateLinkInput.TimerSeconds input = None ->
  let out := Service.UpdateLink json_Marshal json_Unmarshal repo code input w in
  exists row,
    links out.2 !! code = Some row /\
    Mode row = Mode stale /\ TimerSeconds row = TimerSeconds stale.
Proof.
  intros Hn Hr Hd Hl Hc Hf Hk Hv Hu Hs Hm Ht.
  destruct (asked_frame repo code w) as (Al & Ak & At & Ar & Ad & Ab).
  assert (Hg : GetByCode json_Marshal json_Unmarshal repo code w =
               (Ok stale, set_trace (cons (RedisGet (cacheKeyPrefix +:+ code)))
                            (asked repo code w))).
  { rewrite GetByCode_up by trivial. cbv zeta. rewrite Hk, Hu.
    apply String.eqb_neq in Hv. rewrite Hv. reflexivity. }
  set (w1 := set_trace _ _) in Hg.
  pose proof (UpdateLink_from repo code input stale old w w1 Hg Hs Hn) as H.
  cbv zeta in *. destruct H as [_ H].
  - unfold w1. cbn [redis_faults set_trace]. congruence.
  - unfold w1. cbn [db_faults set_trace]. congruence.
  - unfold w1. cbn [links set_trace]. rewrite Al. exact Hl.
  - eexists. split; [exact H|].
    unfold updated, Service.merge. cbn [Mode TimerSeconds]. rewrite Hm, Ht. split; reflexivity.
Qed.

(** X26: A valid request to create a link under a code that is taken is
    answered 500, and the table keeps the row it had. *)
Theorem create_taken_code_is_500 (repo : linkRepository) (req : API.CreateLinkRequest.t)
    (old : Link) (w : World) :
  API.CreateLinkRequest.URL req <> "" ->
  API.mode_ok (API.CreateLinkRequest.Mode req) = true ->
  0 <= API.CreateLinkRequest.TimerSeconds req <= 300 ->
  db_faults w = [] ->
  links w !! API.CreateLinkRequest.Code req = Some old ->
  let out := API.CreateLink repo (Some req) w in
  out.1 = API.Error API.StatusInternalServerError "failed to create link" /\
  links out.2 = links w.
Proof.
  intros Hu Hm Ht Hd Hl. cbv zeta. unfold API.CreateLink.
  apply String.eqb_neq in Hu. rewrite Hu, Hm. cbn [negb].
  replace (_ || _) with false by (symmetry; apply orb_false_iff; split; apply Z.ltb_ge; lia).
  unfold bind, Service.CreateLink, bind.
  cbn [Service.CreateLinkInput.Code Service.CreateLinkInput.URL Service.CreateLinkInput.Mode
       Service.CreateLinkInput.TimerSeconds Service.CreateLinkInput.Disabled
       Service.CreateLinkInput.ExpiresAt].
  set (link := mkLink _ _ _ _ _ _ 0 0).
  destruct (Create_taken repo link old w Hd Hl) as (H1 & H2 & _).
  destruct (Create repo link w) as [[row err] w1]. cbn [fst snd] in *.
  rewrite H1. cbn [ret fst snd]. split; [reflexivity | exact H2].
Qed.

(** X27: Whatever goes wrong below GetLink is answered 404: with the database
    down the answer is still that the link is not found. *)
Theorem get_link_outage_is_404 (repo : linkRepository) (code : string) (w : World)
    (fs : list bool) :
  code <> "" -> redis_nil repo = true -> db_faults w = true :: fs ->
  (API.GetLink json_Marshal json_Unmarshal repo code w).1 =
    API.Error API.StatusNotFound "link not found".
Proof.
  intros Hc Hn Hd. unfold API.GetLink. apply String.eqb_neq in Hc. rewrite Hc.
  unfold bind, Service.GetLink, bind.
  destruct (GetByCode_bare json_Marshal json_Unmarshal repo code w Hn) as [H _].
  destruct (GetByCode json_Marshal json_Unmarshal repo code w) as [res w1].
  cbn [fst] in H. subst res.
  destruct w as [ls k b t rf df tr]. cbn [db_faults] in Hd. subst df.
  reflexivity.
Qed.

End Service.
End ServiceMore.

Module RedirectMore.
Import StateM Repo RepoAux RepoFacts RepoClaims RepoMore.
Local Open Scope string_scope.
Local Open Scope Z_scope.

Section Redirect.
Context (json_Marshal : Link -> option string).
Context (json_Unmarshal : string -> option Link).

Lemma GetByCode_clock (r : linkRepository) (code : string) (w : World) :
  clock (GetByCode json_Marshal json_Unmarshal r code w).2 = clock w.
Proof.
  destruct r as [rnil sup], w as [ls k b t rf df tr].
  destruct rnil, sup;
    destruct rf as [|[] [|[] [|[] rf]]]; destruct df as [|[] df]; run;
    repeat match goal with
           | |- context [match ?x with _ => _ end] =>
               match x with
               | context [match _ with _ => _ end] => fail 1
               | _ => destruct x
               end
           end; reflexivity.
Qed.

(** X28: loadLink hands over only a link that is enabled and not past its
    expiry, and it is the link GetByCode returned. *)
Theorem loaded_link_is_live (h : Redirect.RedirectHandler) (code : string)
    (w : World) (link : Link) :
  (Redirect.loadLink json_Marshal json_Unmarshal h code w).1 = inl link ->
  (GetByCode json_Marshal json_Unmarshal (Redirect.links h) code w).1 = Ok link /\
  Disabled link = false /\
  forall t, ExpiresAt link = Some t -> clock w <= t.
Proof.
  unfold Redirect.loadLink, bind.
  pose proof (GetByCode_clock (Redirect.links h) code w) as Hc.
  destruct (GetByCode json_Marshal json_Unmarshal (Redirect.links h) code w) as [[l|e] w1].
  2:{ destruct e; discriminate. }
  cbn [snd] in Hc.
  destruct (Disabled l) eqn:Hd; [discriminate|].
  unfold get. destruct (ExpiresAt l) as [t|] eqn:He.
  - destruct (t <? clock w1) eqn:Ht; [discriminate|].
    cbn [ret fst]. intros [= <-]. repeat split; trivial.
    intros t' Ht'. rewrite He in Ht'. injection Ht' as <-.
    apply Z.ltb_ge in Ht. lia.
  - cbn [ret fst]. intros [= <-]. repeat split; trivial.
    intros t' Ht'. congruence.
Qed.

(** X29: A token that does not validate is answered 401 before anything else
    is done: no link is looked up and no click event is touched. *)
Theorem go_refuses_invalid_token (h : Redirect.RedirectHandler) (code token : string)
    (s : Redirect.State) (e : Token.error) :
  code <> "" -> token <> "" ->
  Token.secret (Redirect.tokens h) <> [] ->
  Token.ValidateAndExtractClickID (Redirect.tokens h) (clock s.1)
    (Bytes.of_string code) (Bytes.of_string token) = Token.Err e ->
  Redirect.Go json_Marshal json_Unmarshal h code token s =
    (Redirect.Error Redirect.StatusUnauthorized "invalid or expired token", s).
Proof.
  intros Hc Ht Hs Hv. unfold Redirect.Go.
  apply String.eqb_neq in Hc, Ht. rewrite Hc, Ht. cbn [orb].
  unfold bind, get. rewrite Hv.
  rewrite (TokenClaims.validate_error _ _ _ _ _ Hs Hv). reflexivity.
Qed.

Lemma url_safe_byte (c : Z) : TokenWords.url_safe c = true -> Bytes.is_byte c.
Proof. unfold TokenWords.url_safe, Bytes.is_byte. lia. Qed.

(** X30: The click id Go confirms is the one the token was issued with: for a
    token issued for the code and still valid, and a link that loads, Go
    redirects to the URL of the link and the click event of that id is
    SUCCESS afterwards. *)
Theorem go_confirms_click (h : Redirect.RedirectHandler) (code clickID : string)
    (t0 : Z) (rnd tok : list Z) (s : Redirect.State) (link : Link)
    (event : Clicks.ClickEvent) :
  Redirect.clickEvents_nil h = false ->
  code <> "" -> clickID <> "" ->
  Bytes.len (Bytes.of_string clickID) < 65536 ->
  length rnd = 8%nat -> Forall Bytes.is_byte rnd ->
  Token.IssueWithClickID (Redirect.tokens h) t0 (Some rnd)
    (Bytes.of_string code) (Bytes.of_string clickID) = Token.Ok tok ->
  Token.Unix (clock s.1) <=
    Bytes.uint32 (Token.Unix (t0 + Token.ttl (Redirect.tokens h))) ->
  (Redirect.loadLink json_Marshal json_Unmarshal h code s.1).1 = inl link ->
  Clicks.db_faults s.2 = [] ->
  Clicks.events s.2 !! clickID = Some event ->
  let out := Redirect.Go json_Marshal json_Unmarshal h code (Redirect.to_string tok) s in
  out.1 = Redirect.Redirect (URL link) Redirect.StatusFound /\
  Clicks.events out.2.2 !! clickID =
    Some (Clicks.with_status Clicks.ClickStatusSuccess event).
Proof.
  intros Hnil Hc Hid Hlen Hr8 Hrb Hi Hexp Hload Hdb Hev.
  pose proof (TokenClaims.issue_secret _ _ _ _ _ _ Hi) as Hs.
  destruct (TokenMore.validate_issued (Redirect.tokens h) t0 (clock s.1) rnd
              (Bytes.of_string code) (Bytes.of_string clickID))
    as (tok' & Hi' & Hv); trivial.
  { apply BytesFacts.of_string_bytes. }
  assert (tok' = tok) as -> by congruence.
  replace (_ <? _) with false in Hv by (symmetry; apply Z.ltb_ge; lia).
  destruct (TokenMore.issued_token_shape _ _ _ _ _ _ Hi)
    as (p0 & p1 & Htok & H0 & H1 & _).
  assert (Hb : Forall Bytes.is_byte tok).
  { rewrite Htok. repeat apply Forall_app_2.
    - eapply Forall_impl; [exact H0 | apply url_safe_byte].
    - apply BytesFacts.of_string_bytes.
    - eapply Forall_impl; [exact H1 | apply url_safe_byte]. }
  assert (Hne : Redirect.to_string tok <> "").
  { intros E. apply (f_equal Bytes.of_string) in E.
    rewrite RedirectFacts.of_string_to_string in E by trivial.
    rewrite Htok in E. destruct p0; discriminate. }
  assert (HGo : Redirect.Go json_Marshal json_Unmarshal h code (Redirect.to_string tok) s =
                (Redirect.Redirect (URL link) Redirect.StatusFound,
                 ((Redirect.loadLink json_Marshal json_Unmarshal h code s.1).2,
                  Clicks.mkStore
                    (alter (Clicks.with_status Clicks.ClickStatusSuccess) clickID
                       (Clicks.events s.2)) []))).
  { unfold Redirect.Go.
    apply String.eqb_neq in Hc, Hne. rewrite Hc, Hne. cbn [orb].
    unfold bind at 1, get. rewrite RedirectFacts.of_string_to_string by trivial.
    rewrite Hv. unfold bind at 1, Redirect.on_links.
    destruct (Redirect.loadLink json_Marshal json_Unmarshal h code s.1) as [ld w1].
    cbn [fst] in Hload. subst ld. cbn [fst snd].
    unfold bind, Redirect.on_clicks. cbn [fst snd].
    rewrite RedirectFacts.to_string_of_string.
    unfold Clicks.confirm. apply String.eqb_neq in Hid. rewrite Hid, Hnil. cbn [negb andb].
    unfold bind. rewrite ClickFacts.UpdateStatus_up by trivial. reflexivity. }
  cbv zeta. rewrite HGo. cbn [fst snd Clicks.events]. split; [reflexivity|].
  rewrite lookup_alter_eq, Hev. reflexivity.
Qed.

End Redirect.
End RedirectMore.

Module MoreWitness.
Import StateM Repo.
Local Open Scope string_scope.
Local Open Scope Z_scope.


Lemma miss_then_create_is_hidden_witness :
  (GetByCode RepoSample.json_Marshal RepoSample.json_Unmarshal MoreSample.plain "promo"
     MoreSample.empty).1 = Err ErrLinkNotFound.
Proof.
  apply (RepoMore.miss_then_create_is_hidden RepoSample.json_Marshal
           RepoSample.json_Unmarshal MoreSample.plain RepoSample.link MoreSample.empty second);
    try (vm_compute; reflexivity).
  unfold cacheNullTTL, second. lia.
Defined.

Lemma create_duplicate_witness :
  (Create RepoSample.repo RepoSample.link RepoSample.world).1.2 = Some ErrDuplicatedKey.
Proof.
  apply (RepoMore.create_duplicate RepoSample.repo RepoSample.link RepoSample.link
           RepoSample.world); vm_compute; reflexivity.
Defined.

Lemma cached_hit_skips_store_witness :
  (GetByCode RepoSample.json_Marshal RepoSample.json_Unmarshal RepoSample.repo "promo"
     RepoSample.warm).1 = Ok RepoSample.link.
Proof.
  apply (RepoMore.cached_hit_skips_store RepoSample.json_Marshal RepoSample.json_Unmarshal
           RepoSample.repo "promo" "{code:promo,url:https://example.org/a}"
           RepoSample.link RepoSample.warm);
    try (vm_compute; reflexivity).
  discriminate.
Defined.

Lemma get_without_redis_witness :
  trace (GetByCode RepoSample.json_Marshal RepoSample.json_Unmarshal MoreSample.bare
           "promo" RepoSample.world).2 = DbSelect "promo" :: trace RepoSample.world.
Proof.
  apply (RepoMore.get_without_redis RepoSample.json_Marshal RepoSample.json_Unmarshal
           MoreSample.bare "promo" RepoSample.world).
  reflexivity.
Defined.

Lemma get_with_redis_down_witness :
  kv (GetByCode RepoSample.json_Marshal RepoSample.json_Unmarshal RepoSample.repo
        "promo" MoreSample.down).2 = kv MoreSample.down.
Proof.
  apply (RepoMore.get_with_redis_down RepoSample.json_Marshal RepoSample.json_Unmarshal
           RepoSample.repo "promo" MoreSample.down []); reflexivity.
Defined.

Lemma update_missing_witness :
  (Update RepoSample.repo RepoSample.edited MoreSample.empty).1 =
    (RepoSample.edited, Some ErrLinkNotFound).
Proof.
  apply (RepoMore.update_missing RepoSample.repo RepoSample.edited MoreSample.empty);
    vm_compute; reflexivity.
Defined.

Lemma lost_invalidation_serves_stale_witness :
  (GetByCode RepoSample.json_Marshal RepoSample.json_Unmarshal RepoSample.repo "promo"
     (advance second
        (Update RepoSample.repo RepoSample.edited MoreSample.warm_flaky).2)).1 =
    Ok RepoSample.link.
Proof.
  apply (RepoMore.lost_invalidation_serves_stale RepoSample.json_Marshal
           RepoSample.json_Unmarshal RepoSample.repo RepoSample.edited RepoSample.link
           RepoSample.link "{code:promo,url:https://example.org/a}"
           (RepoSample.now + cacheTTL) MoreSample.warm_flaky second);
    try (vm_compute; reflexivity).
  discriminate.
Defined.

Lemma failed_probe_disables_filter_witness :
  bloomSupported (NewLinkRepository false RepoSample.flaky).1 = false.
Proof.
  apply (RepoMore.failed_probe_disables_filter RepoSample.link RepoSample.flaky ∅);
    try (vm_compute; reflexivity).
  set_solver.
Defined.

Lemma sweep_spares_terminal_and_fresh_witness :
  Clicks.events
    (Clicks.checkExpiredPendingEvents ClickSample.checker
       (1700000030 * 1000000000) ClickSample.store).2 !! "abc" = Some ClickSample.event.
Proof.
  apply (ClickMore.sweep_spares_terminal_and_fresh ClickSample.checker
           (1700000030 * 1000000000) "abc" ClickSample.event ClickSample.store).
  - reflexivity.
  - right. vm_compute. discriminate.
Defined.

Lemma second_sweep_finds_nothing_witness :
  Clicks.UpdateExpiredPendingStatus (1700000001 * 1000000000)
    (Clicks.UpdateExpiredPendingStatus (1700000001 * 1000000000) ClickSample.store).2 =
  (0, None,
   (Clicks.UpdateExpiredPendingStatus (1700000001 * 1000000000) ClickSample.store).2).
Proof.
  apply (ClickMore.second_sweep_finds_nothing (1700000001 * 1000000000) ClickSample.store).
  reflexivity.
Defined.

Lemma confirmed_event_survives_sweep_witness :
  Clicks.events
    (Clicks.checkExpiredPendingEvents ClickSample.checker (1800000000 * 1000000000)
       (Clicks.confirm false "abc" ClickSample.store).2).2 !! "abc" =
  Some (Clicks.with_status Clicks.ClickStatusSuccess ClickSample.event).
Proof.
  apply (ClickMore.confirmed_event_survives_sweep ClickSample.checker
           (1800000000 * 1000000000) "abc" ClickSample.event ClickSample.store).
  - reflexivity.
  - reflexivity.
  - discriminate.
Defined.

Lemma early_confirmation_is_lost_witness :
  Clicks.events
    (Clicks.Create ClickSample.event
       (Clicks.confirm false "abc" (Clicks.mkStore ∅ [])).2).2 !! "abc" =
  Some ClickSample.event.
Proof.
  apply (ClickMore.early_confirmation_is_lost ClickSample.event (Clicks.mkStore ∅ [])).
  - reflexivity.
  - reflexivity.
  - discriminate.
Defined.

Lemma created_link_is_valid_witness :
  exists row,
    links (API.CreateLink RepoSample.repo (Some MoreSample.request) MoreSample.empty).2
      !! "promo" = Some row /\
    API.render row =
      API.CreateLinkResponse.mk "promo" "https://example.org/a" "click" 5 false None
        RepoSample.now.
Proof.
  apply (ServiceMore.created_link_is_valid RepoSample.repo (Some MoreSample.request)
           MoreSample.empty
           (API.CreateLinkResponse.mk "promo" "https://example.org/a" "click" 5 false None
              RepoSample.now)).
  vm_compute. reflexivity.
Defined.

Lemma update_link_changes_named_columns_witness :
  (Service.UpdateLink RepoSample.json_Marshal RepoSample.json_Unmarshal RepoSample.repo
     "promo" MoreSample.change RepoSample.world).1 =
  Service.Ok (mkLink "promo" "https://example.org/b" "click" 0 false None 1000 RepoSample.now).
Proof.
  apply (ServiceMore.update_link_changes_named_columns RepoSample.json_Marshal
           RepoSample.json_Unmarshal RepoSample.repo "promo" MoreSample.change
           RepoSample.link RepoSample.world);
    vm_compute; reflexivity.
Defined.

Lemma update_link_writes_back_cached_columns_witness :
  exists row,
    links (Service.UpdateLink RepoSample.json_Marshal RepoSample.json_Unmarshal
             RepoSample.repo "promo" MoreSample.change RepoSample.warm).2 !! "promo"
      = Some row /\
    Mode row = Mode RepoSample.link /\ TimerSeconds row = TimerSeconds RepoSample.link.
Proof.
  apply (ServiceMore.update_link_writes_back_cached_columns RepoSample.json_Marshal
           RepoSample.json_Unmarshal RepoSample.repo "promo"
           "{code:promo,url:https://example.org/a}" MoreSample.change
           RepoSample.link RepoSample.link RepoSample.warm);
    try (vm_compute; reflexivity).
  discriminate.
Defined.

Lemma create_taken_code_is_500_witness :
  (API.CreateLink RepoSample.repo (Some MoreSample.request) RepoSample.world).1 =
    API.Error API.StatusInternalServerError "failed to create link".
Proof.
  apply (ServiceMore.create_taken_code_is_500 RepoSample.repo MoreSample.request
           RepoSample.link RepoSample.world);
    try (vm_compute; reflexivity).
  - discriminate.
  - cbn. lia.
Defined.

Lemma get_link_outage_is_404_witness :
  (API.GetLink RepoSample.json_Marshal RepoSample.json_Unmarshal MoreSample.bare "promo"
     MoreSample.dark).1 = API.Error API.StatusNotFound "link not found".
Proof.
  apply (ServiceMore.get_link_outage_is_404 RepoSample.json_Marshal
           RepoSample.json_Unmarshal MoreSample.bare "promo" MoreSample.dark []).
  - discriminate.
  - reflexivity.
  - reflexivity.
Defined.

Lemma loaded_link_is_live_witness :
  Disabled RepoSample.link = false.
Proof.
  apply (RedirectMore.loaded_link_is_live RepoSample.json_Marshal RepoSample.json_Unmarshal
           MoreSample.handler "promo" RepoSample.world RepoSample.link).
  vm_compute. reflexivity.
Defined.

Lemma go_refuses_invalid_token_witness :
  Redirect.Go RepoSample.json_Marshal RepoSample.json_Unmarshal MoreSample.handler
    "promo" "garbage" (RepoSample.world, ClickSample.store) =
  (Redirect.Error Redirect.StatusUnauthorized "invalid or expired token",
   (RepoSample.world, ClickSample.store)).
Proof.
  apply (RedirectMore.go_refuses_invalid_token RepoSample.json_Marshal
           RepoSample.json_Unmarshal MoreSample.handler "promo" "garbage"
           (RepoSample.world, ClickSample.store) Token.ErrInvalidToken).
  - discriminate.
  - discriminate.
  - discriminate.
  - vm_compute. reflexivity.
Defined.

Lemma go_confirms_click_witness :
  (Redirect.Go RepoSample.json_Marshal RepoSample.json_Unmarshal MoreSample.handler
     "promo" (Redirect.to_string TokenSample.click_token)
     (RepoSample.world, ClickSample.store)).1 =
  Redirect.Redirect "https://example.org/a" Redirect.StatusFound.
Proof.
  apply (RedirectMore.go_confirms_click RepoSample.json_Marshal RepoSample.json_Unmarshal
           MoreSample.handler "promo" "abc" TokenSample.now TokenSample.rnd
           TokenSample.click_token (RepoSample.world, ClickSample.store)
           RepoSample.link ClickSample.event).
  - reflexivity.
  - discriminate.
  - discriminate.
  - reflexivity.
  - reflexivity.
  - repeat constructor; unfold Bytes.is_byte; lia.
  - vm_compute. reflexivity.
  - vm_compute. discriminate.
  - vm_compute. reflexivity.
  - reflexivity.
  - reflexivity.
Defined.

End MoreWitness.
